(** * Ride lifecycle of the driver application

    A shallow embedding of the ride/booking controller of the driver
    application and the fare computations performed at completion.

    Sources embedded here:
    - [src/unnamed/part_001]: the first ride context provider (module
      [Basic]): polling manager and the nine controller operations;
    - [src/unnamed/part_002]: the extended ride context provider (module
      [Tracked]): realtime/polling manager, decline markers, trip tracking
      and fare computation at completion;
    - [src/components/TripCompletionModal.tsx], [handleCompleteTrip]: the
      fare computation for scheduled bookings (module [Scheduled]).

    Numbers: the JavaScript numbers of the source (fares, rates,
    distances, coordinates) are IEEE 754 binary64 values, modelled by the
    primitive floats of Rocq with the operations of the source in the
    order of the source; integers (timestamps in milliseconds, counters,
    whole minutes and hours) are [Z]; the random draw behind a one-time
    code is a rational of [0, 1).  Asynchronous operations are sequential
    computations over an explicit state made of the hosted store, the plan
    of store failures and the provider's local (React) state; a thrown
    JavaScript error is an explicit outcome. *)

From Stdlib Require Import ZArith QArith Qround Qminmax Lia Floats.
From stdpp Require Import base option list sorting gmap strings pretty.

Local Open Scope Z_scope.

(** A decimal literal denotes the nearest binary64 value, as it does in
    JavaScript. *)
Set Warnings "-inexact-float".

(** ** JavaScript values *)

Module JS.

(** [!!s] for a nullable string: [null], [undefined] and [""] are falsy. *)
Definition truthy (o : option string) : bool :=
  match o with
  | Some s => negb (String.eqb s "")
  | None => false
  end.

(** The number of an integer: the nearest binary64 value, the integer
    itself up to [2^53]. *)
Definition of_int (z : Z) : float := SF2Prim (binary_normalize prec emax z 0 false).

(** The rational a finite number denotes (0 for [NaN] and the
    infinities, which no quotient of timestamps reaches). *)
Definition value (x : float) : Q :=
  match Prim2SF x with
  | S754_finite s m e =>
      let v := (inject_Z (Zpos m) * 2 ^ e)%Q in
      if s then (- v)%Q else v
  | _ => 0%Q
  end.

(** The falsy numbers: [0], [-0] and [NaN]. *)
Definition falsy (x : float) : bool := PrimFloat.is_zero x || PrimFloat.is_nan x.

(** [x || d] on a nullable number: [null] and the falsy numbers give [d]. *)
Definition num_or (o : option float) (d : float) : float :=
  match o with
  | Some x => if falsy x then d else x
  | None => d
  end.

(** [x || 0] for a nullable integer. *)
Definition int_or (o : option Z) (d : Z) : Z :=
  match o with
  | Some z => if Z.eqb z 0 then d else z
  | None => d
  end.

(** [Math.round], [Math.floor] and [Math.ceil], on the rational a number
    denotes: the nearest integer with halves rounded up, the integer
    below and the integer above. *)
Definition round (x : Q) : Z := Qfloor (x + (1 # 2))%Q.
Definition floor (x : Q) : Z := Qfloor x.
Definition ceil (x : Q) : Z := Qceiling x.

(** [Math.max] on two numbers: [NaN] if either is, and [0] above [-0]. *)
Definition max (x y : float) : float :=
  if PrimFloat.is_nan x || PrimFloat.is_nan y then nan
  else if (x <? y)%float then y
  else if (y <? x)%float then x
  else if get_sign x then y else x.

(** [n.toString()] for an integer. *)
Definition toString (n : Z) : string := pretty n.

(** [s.includes(t)]. *)
Definition includes (s t : string) : bool :=
  match String.index 0 t s with
  | Some _ => true
  | None => false
  end.

(** A thrown value: an [Error] with its message. *)
Record Error := { message : string }.

End JS.

(** ** Rows of the hosted store *)

Inductive RideStatus :=
  | requested | accepted | driver_arrived | in_progress | completed | cancelled.

Inductive DriverStatus := offline | online | busy.

Inductive BookingType := regular | rental | outstation | airport.

Inductive NotificationType := ride_request | ride_declined | other_notification.

Inductive NotificationStatus := unread | read | notif_cancelled.

#[global] Instance RideStatus_eq_dec : EqDecision RideStatus.
Proof. solve_decision. Defined.
#[global] Instance DriverStatus_eq_dec : EqDecision DriverStatus.
Proof. solve_decision. Defined.
#[global] Instance BookingType_eq_dec : EqDecision BookingType.
Proof. solve_decision. Defined.
#[global] Instance NotificationType_eq_dec : EqDecision NotificationType.
Proof. solve_decision. Defined.
#[global] Instance NotificationStatus_eq_dec : EqDecision NotificationStatus.
Proof. solve_decision. Defined.

(** A row of [rides]: the columns the source reads or writes. *)
Record Ride := {
  ride_id : string;
  driver_id : option string;
  status : RideStatus;
  booking_type : BookingType;
  vehicle_type : string;
  pickup_otp : option string;
  drop_otp : option string;
  fare_amount : option float;
  distance_km : option float;
  duration_minutes : option float;
  payment_status : option string;
  rental_hours : option float;
  cancellation_reason : option string;
  cancelled_by : option string;
  pickup_address : string;
  destination_address : string;
  created_at : Z;
  updated_at : Z
}.

(** The fields of an [update({...})] object, one setter per column. *)
Definition set_status (v : RideStatus) (r : Ride) : Ride :=
  {| ride_id := ride_id r; driver_id := driver_id r; status := v;
     booking_type := booking_type r; vehicle_type := vehicle_type r;
     pickup_otp := pickup_otp r; drop_otp := drop_otp r;
     fare_amount := fare_amount r; distance_km := distance_km r;
     duration_minutes := duration_minutes r; payment_status := payment_status r;
     rental_hours := rental_hours r; cancellation_reason := cancellation_reason r;
     cancelled_by := cancelled_by r; pickup_address := pickup_address r;
     destination_address := destination_address r; created_at := created_at r;
     updated_at := updated_at r |}.

Definition set_driver_id (v : option string) (r : Ride) : Ride :=
  {| ride_id := ride_id r; driver_id := v; status := status r;
     booking_type := booking_type r; vehicle_type := vehicle_type r;
     pickup_otp := pickup_otp r; drop_otp := drop_otp r;
     fare_amount := fare_amount r; distance_km := distance_km r;
     duration_minutes := duration_minutes r; payment_status := payment_status r;
     rental_hours := rental_hours r; cancellation_reason := cancellation_reason r;
     cancelled_by := cancelled_by r; pickup_address := pickup_address r;
     destination_address := destination_address r; created_at := created_at r;
     updated_at := updated_at r |}.

Definition set_pickup_otp (v : option string) (r : Ride) : Ride :=
  {| ride_id := ride_id r; driver_id := driver_id r; status := status r;
     booking_type := booking_type r; vehicle_type := vehicle_type r;
     pickup_otp := v; drop_otp := drop_otp r;
     fare_amount := fare_amount r; distance_km := distance_km r;
     duration_minutes := duration_minutes r; payment_status := payment_status r;
     rental_hours := rental_hours r; cancellation_reason := cancellation_reason r;
     cancelled_by := cancelled_by r; pickup_address := pickup_address r;
     destination_address := destination_address r; created_at := created_at r;
     updated_at := updated_at r |}.

Definition set_drop_otp (v : option string) (r : Ride) : Ride :=
  {| ride_id := ride_id r; driver_id := driver_id r; status := status r;
     booking_type := booking_type r; vehicle_type := vehicle_type r;
     pickup_otp := pickup_otp r; drop_otp := v;
     fare_amount := fare_amount r; distance_km := distance_km r;
     duration_minutes := duration_minutes r; payment_status := payment_status r;
     rental_hours := rental_hours r; cancellation_reason := cancellation_reason r;
     cancelled_by := cancelled_by r; pickup_address := pickup_address r;
     destination_address := destination_address r; created_at := created_at r;
     updated_at := updated_at r |}.

Definition set_fare_amount (v : option float) (r : Ride) : Ride :=
  {| ride_id := ride_id r; driver_id := driver_id r; status := status r;
     booking_type := booking_type r; vehicle_type := vehicle_type r;
     pickup_otp := pickup_otp r; drop_otp := drop_otp r;
     fare_amount := v; distance_km := distance_km r;
     duration_minutes := duration_minutes r; payment_status := payment_status r;
     rental_hours := rental_hours r; cancellation_reason := cancellation_reason r;
     cancelled_by := cancelled_by r; pickup_address := pickup_address r;
     destination_address := destination_address r; created_at := created_at r;
     updated_at := updated_at r |}.

Definition set_distance_km (v : option float) (r : Ride) : Ride :=
  {| ride_id := ride_id r; driver_id := driver_id r; status := status r;
     booking_type := booking_type r; vehicle_type := vehicle_type r;
     pickup_otp := pickup_otp r; drop_otp := drop_otp r;
     fare_amount := fare_amount r; distance_km := v;
     duration_minutes := duration_minutes r; payment_status := payment_status r;
     rental_hours := rental_hours r; cancellation_reason := cancellation_reason r;
     cancelled_by := cancelled_by r; pickup_address := pickup_address r;
     destination_address := destination_address r; created_at := created_at r;
     updated_at := updated_at r |}.

Definition set_duration_minutes (v : option float) (r : Ride) : Ride :=
  {| ride_id := ride_id r; driver_id := driver_id r; status := status r;
     booking_type := booking_type r; vehicle_type := vehicle_type r;
     pickup_otp := pickup_otp r; drop_otp := drop_otp r;
     fare_amount := fare_amount r; distance_km := distance_km r;
     duration_minutes := v; payment_status := payment_status r;
     rental_hours := rental_hours r; cancellation_reason := cancellation_reason r;
     cancelled_by := cancelled_by r; pickup_address := pickup_address r;
     destination_address := destination_address r; created_at := created_at r;
     updated_at := updated_at r |}.

Definition set_payment_status (v : option string) (r : Ride) : Ride :=
  {| ride_id := ride_id r; driver_id := driver_id r; status := status r;
     booking_type := booking_type r; vehicle_type := vehicle_type r;
     pickup_otp := pickup_otp r; drop_otp := drop_otp r;
     fare_amount := fare_amount r; distance_km := distance_km r;
     duration_minutes := duration_minutes r; payment_status := v;
     rental_hours := rental_hours r; cancellation_reason := cancellation_reason r;
     cancelled_by := cancelled_by r; pickup_address := pickup_address r;
     destination_address := destination_address r; created_at := created_at r;
     updated_at := updated_at r |}.

Definition set_cancellation_reason (v : option string) (r : Ride) : Ride :=
  {| ride_id := ride_id r; driver_id := driver_id r; status := status r;
     booking_type := booking_type r; vehicle_type := vehicle_type r;
     pickup_otp := pickup_otp r; drop_otp := drop_otp r;
     fare_amount := fare_amount r; distance_km := distance_km r;
     duration_minutes := duration_minutes r; payment_status := payment_status r;
     rental_hours := rental_hours r; cancellation_reason := v;
     cancelled_by := cancelled_by r; pickup_address := pickup_address r;
     destination_address := destination_address r; created_at := created_at r;
     updated_at := updated_at r |}.

Definition set_cancelled_by (v : option string) (r : Ride) : Ride :=
  {| ride_id := ride_id r; driver_id := driver_id r; status := status r;
     booking_type := booking_type r; vehicle_type := vehicle_type r;
     pickup_otp := pickup_otp r; drop_otp := drop_otp r;
     fare_amount := fare_amount r; distance_km := distance_km r;
     duration_minutes := duration_minutes r; payment_status := payment_status r;
     rental_hours := rental_hours r; cancellation_reason := cancellation_reason r;
     cancelled_by := v; pickup_address := pickup_address r;
     destination_address := destination_address r; created_at := created_at r;
     updated_at := updated_at r |}.

Definition set_updated_at (v : Z) (r : Ride) : Ride :=
  {| ride_id := ride_id r; driver_id := driver_id r; status := status r;
     booking_type := booking_type r; vehicle_type := vehicle_type r;
     pickup_otp := pickup_otp r; drop_otp := drop_otp r;
     fare_amount := fare_amount r; distance_km := distance_km r;
     duration_minutes := duration_minutes r; payment_status := payment_status r;
     rental_hours := rental_hours r; cancellation_reason := cancellation_reason r;
     cancelled_by := cancelled_by r; pickup_address := pickup_address r;
     destination_address := destination_address r; created_at := created_at r;
     updated_at := v |}.

(** A row of [drivers]. *)
Record DriverRow := {
  drv_user_id : option string;
  drv_vehicle_id : option string;
  drv_status : DriverStatus;
  drv_total_rides : option Z
}.

Definition set_drv_status (v : DriverStatus) (d : DriverRow) : DriverRow :=
  {| drv_user_id := drv_user_id d; drv_vehicle_id := drv_vehicle_id d;
     drv_status := v; drv_total_rides := drv_total_rides d |}.

Definition set_drv_total_rides (v : option Z) (d : DriverRow) : DriverRow :=
  {| drv_user_id := drv_user_id d; drv_vehicle_id := drv_vehicle_id d;
     drv_status := drv_status d; drv_total_rides := v |}.

(** Rows of [users] and [vehicles]. *)
Record UserRow := { full_name : option string; phone_number : option string }.

Record VehicleRow := {
  make : option string;
  model : option string;
  registration_number : option string
}.

(** The [data] object of a notification: [ride_id], or [rideId] in the
    other format the source accepts. *)
Record NotificationData := { data_ride_id : option string; data_rideId : option string }.

(** A row of [notifications]. *)
Record Notification := {
  n_user_id : string;
  n_type : NotificationType;
  n_status : NotificationStatus;
  n_data : option NotificationData;
  n_created_at : Z
}.

Definition set_n_status (v : NotificationStatus) (n : Notification) : Notification :=
  {| n_user_id := n_user_id n; n_type := n_type n; n_status := v;
     n_data := n_data n; n_created_at := n_created_at n |}.

(** A row of [fare_matrix]. *)
Record FareMatrix := {
  fm_booking_type : BookingType;
  fm_vehicle_type : string;
  is_active : bool;
  base_fare : float;
  per_km_rate : float;
  per_minute_rate : option float;
  platform_fee_percent : float;
  minimum_fare : float;
  hourly_rate : option float
}.

(** A position sample ([currentLocation.coords]) and a row of
    [live_locations]. *)
Record Coords := {
  latitude : float;
  longitude : float;
  heading : option float;
  speed : option float;
  accuracy : option float
}.

Record LiveLocation := { loc_coords : Coords; loc_updated_at : Z }.

(** A row of [scheduled_bookings]. *)
Record ScheduledBooking := {
  sb_id : string;
  assigned_driver_id : option string;
  sb_status : string;
  sb_booking_type : BookingType;
  sb_rental_hours : option float;
  scheduled_time : Z
}.

(** The store: [rides], [drivers], [users], [vehicles] and
    [live_locations] are keyed by their unique column ([id], and
    [user_id] for [live_locations]); the other tables are row lists. *)
Record Store := {
  rides : gmap string Ride;
  drivers : gmap string DriverRow;
  users : gmap string UserRow;
  vehicles : gmap string VehicleRow;
  notifications : list Notification;
  fare_matrix : list FareMatrix;
  live_locations : gmap string LiveLocation;
  scheduled_bookings : list ScheduledBooking
}.

Definition set_rides (v : gmap string Ride) (d : Store) : Store :=
  {| rides := v; drivers := drivers d; users := users d; vehicles := vehicles d;
     notifications := notifications d; fare_matrix := fare_matrix d;
     live_locations := live_locations d; scheduled_bookings := scheduled_bookings d |}.

Definition set_drivers (v : gmap string DriverRow) (d : Store) : Store :=
  {| rides := rides d; drivers := v; users := users d; vehicles := vehicles d;
     notifications := notifications d; fare_matrix := fare_matrix d;
     live_locations := live_locations d; scheduled_bookings := scheduled_bookings d |}.

Definition set_notifications (v : list Notification) (d : Store) : Store :=
  {| rides := rides d; drivers := drivers d; users := users d; vehicles := vehicles d;
     notifications := v; fare_matrix := fare_matrix d;
     live_locations := live_locations d; scheduled_bookings := scheduled_bookings d |}.

Definition set_live_locations (v : gmap string LiveLocation) (d : Store) : Store :=
  {| rides := rides d; drivers := drivers d; users := users d; vehicles := vehicles d;
     notifications := notifications d; fare_matrix := fare_matrix d;
     live_locations := v; scheduled_bookings := scheduled_bookings d |}.

(** ** The provider's local state *)

(** The React state of the ride context provider.  [scheduledBookings]
    belongs to the first provider, [assignedScheduledBooking] and the trip
    tracking fields to the extended one; [authStatus] is the driver status
    last pushed to the authentication context
    ([updateDriverStatusFromRide]). *)
Record Local := {
  currentRide : option Ride;
  pendingRides : list Ride;
  scheduledBookings : list ScheduledBooking;
  assignedScheduledBooking : option ScheduledBooking;
  loading : bool;
  error : option string;
  lastNotificationCheck : Z;
  tripStartTime : option Z;
  tripStartLocation : option (float * float);
  totalDistanceTraveled : float;
  lastKnownLocation : option (float * float);
  authStatus : option DriverStatus
}.

Definition set_currentRide (v : option Ride) (l : Local) : Local :=
  {| currentRide := v; pendingRides := pendingRides l;
     scheduledBookings := scheduledBookings l;
     assignedScheduledBooking := assignedScheduledBooking l;
     loading := loading l; error := error l;
     lastNotificationCheck := lastNotificationCheck l;
     tripStartTime := tripStartTime l; tripStartLocation := tripStartLocation l;
     totalDistanceTraveled := totalDistanceTraveled l;
     lastKnownLocation := lastKnownLocation l; authStatus := authStatus l |}.

Definition set_pendingRides (v : list Ride) (l : Local) : Local :=
  {| currentRide := currentRide l; pendingRides := v;
     scheduledBookings := scheduledBookings l;
     assignedScheduledBooking := assignedScheduledBooking l;
     loading := loading l; error := error l;
     lastNotificationCheck := lastNotificationCheck l;
     tripStartTime := tripStartTime l; tripStartLocation := tripStartLocation l;
     totalDistanceTraveled := totalDistanceTraveled l;
     lastKnownLocation := lastKnownLocation l; authStatus := authStatus l |}.

Definition set_scheduledBookings (v : list ScheduledBooking) (l : Local) : Local :=
  {| currentRide := currentRide l; pendingRides := pendingRides l;
     scheduledBookings := v;
     assignedScheduledBooking := assignedScheduledBooking l;
     loading := loading l; error := error l;
     lastNotificationCheck := lastNotificationCheck l;
     tripStartTime := tripStartTime l; tripStartLocation := tripStartLocation l;
     totalDistanceTraveled := totalDistanceTraveled l;
     lastKnownLocation := lastKnownLocation l; authStatus := authStatus l |}.

Definition set_assignedScheduledBooking (v : option ScheduledBooking) (l : Local) : Local :=
  {| currentRide := currentRide l; pendingRides := pendingRides l;
     scheduledBookings := scheduledBookings l;
     assignedScheduledBooking := v;
     loading := loading l; error := error l;
     lastNotificationCheck := lastNotificationCheck l;
     tripStartTime := tripStartTime l; tripStartLocation := tripStartLocation l;
     totalDistanceTraveled := totalDistanceTraveled l;
     lastKnownLocation := lastKnownLocation l; authStatus := authStatus l |}.

Definition set_loading (v : bool) (l : Local) : Local :=
  {| currentRide := currentRide l; pendingRides := pendingRides l;
     scheduledBookings := scheduledBookings l;
     assignedScheduledBooking := assignedScheduledBooking l;
     loading := v; error := error l;
     lastNotificationCheck := lastNotificationCheck l;
     tripStartTime := tripStartTime l; tripStartLocation := tripStartLocation l;
     totalDistanceTraveled := totalDistanceTraveled l;
     lastKnownLocation := lastKnownLocation l; authStatus := authStatus l |}.

Definition set_error (v : option string) (l : Local) : Local :=
  {| currentRide := currentRide l; pendingRides := pendingRides l;
     scheduledBookings := scheduledBookings l;
     assignedScheduledBooking := assignedScheduledBooking l;
     loading := loading l; error := v;
     lastNotificationCheck := lastNotificationCheck l;
     tripStartTime := tripStartTime l; tripStartLocation := tripStartLocation l;
     totalDistanceTraveled := totalDistanceTraveled l;
     lastKnownLocation := lastKnownLocation l; authStatus := authStatus l |}.

Definition set_lastNotificationCheck (v : Z) (l : Local) : Local :=
  {| currentRide := currentRide l; pendingRides := pendingRides l;
     scheduledBookings := scheduledBookings l;
     assignedScheduledBooking := assignedScheduledBooking l;
     loading := loading l; error := error l;
     lastNotificationCheck := v;
     tripStartTime := tripStartTime l; tripStartLocation := tripStartLocation l;
     totalDistanceTraveled := totalDistanceTraveled l;
     lastKnownLocation := lastKnownLocation l; authStatus := authStatus l |}.

Definition set_tripStartTime (v : option Z) (l : Local) : Local :=
  {| currentRide := currentRide l; pendingRides := pendingRides l;
     scheduledBookings := scheduledBookings l;
     assignedScheduledBooking := assignedScheduledBooking l;
     loading := loading l; error := error l;
     lastNotificationCheck := lastNotificationCheck l;
     tripStartTime := v; tripStartLocation := tripStartLocation l;
     totalDistanceTraveled := totalDistanceTraveled l;
     lastKnownLocation := lastKnownLocation l; authStatus := authStatus l |}.

Definition set_tripStartLocation (v : option (float * float)) (l : Local) : Local :=
  {| currentRide := currentRide l; pendingRides := pendingRides l;
     scheduledBookings := scheduledBookings l;
     assignedScheduledBooking := assignedScheduledBooking l;
     loading := loading l; error := error l;
     lastNotificationCheck := lastNotificationCheck l;
     tripStartTime := tripStartTime l; tripStartLocation := v;
     totalDistanceTraveled := totalDistanceTraveled l;
     lastKnownLocation := lastKnownLocation l; authStatus := authStatus l |}.

Definition set_totalDistanceTraveled (v : float) (l : Local) : Local :=
  {| currentRide := currentRide l; pendingRides := pendingRides l;
     scheduledBookings := scheduledBookings l;
     assignedScheduledBooking := assignedScheduledBooking l;
     loading := loading l; error := error l;
     lastNotificationCheck := lastNotificationCheck l;
     tripStartTime := tripStartTime l; tripStartLocation := tripStartLocation l;
     totalDistanceTraveled := v;
     lastKnownLocation := lastKnownLocation l; authStatus := authStatus l |}.

Definition set_lastKnownLocation (v : option (float * float)) (l : Local) : Local :=
  {| currentRide := currentRide l; pendingRides := pendingRides l;
     scheduledBookings := scheduledBookings l;
     assignedScheduledBooking := assignedScheduledBooking l;
     loading := loading l; error := error l;
     lastNotificationCheck := lastNotificationCheck l;
     tripStartTime := tripStartTime l; tripStartLocation := tripStartLocation l;
     totalDistanceTraveled := totalDistanceTraveled l;
     lastKnownLocation := v; authStatus := authStatus l |}.

Definition set_authStatus (v : option DriverStatus) (l : Local) : Local :=
  {| currentRide := currentRide l; pendingRides := pendingRides l;
     scheduledBookings := scheduledBookings l;
     assignedScheduledBooking := assignedScheduledBooking l;
     loading := loading l; error := error l;
     lastNotificationCheck := lastNotificationCheck l;
     tripStartTime := tripStartTime l; tripStartLocation := tripStartLocation l;
     totalDistanceTraveled := totalDistanceTraveled l;
     lastKnownLocation := lastKnownLocation l; authStatus := v |}.

(** ** The authenticated driver and the process environment *)

(** The [driver] object of the authentication context. *)
Record Driver := {
  auth_id : option string;
  auth_user_id : option string;
  auth_status : DriverStatus;
  auth_is_verified : bool;
  auth_user : option UserRow;
  auth_vehicle : option VehicleRow;
  auth_total_rides : option Z
}.

(** [driver?.id] and [driver?.user_id] when truthy. *)
Definition driver_id_of (driver : option Driver) : option string :=
  d ← driver; i ← auth_id d; if JS.truthy (Some i) then Some i else None.

Definition driver_user_id_of (driver : option Driver) : option string :=
  d ← driver; i ← auth_user_id d; if JS.truthy (Some i) then Some i else None.


(** [cancelled_by: driver?.user_id] in an update object: an undefined
    field is not sent, and the column keeps its value. *)
Definition set_cancelled_by_driver (driver : option Driver) (r : Ride) : Ride :=
  match d ← driver; auth_user_id d with
  | Some u => set_cancelled_by (Some u) r
  | None => r
  end.

Record Env := {
  EXPO_PUBLIC_SUPABASE_URL : option string;
  EXPO_PUBLIC_SUPABASE_ANON_KEY : option string
}.

(** ** Computations against the store *)

(** What the environment does to the next store call: the call goes
    through, comes back with an error result, or throws. *)
Record PgError := { code : string }.

Inductive Fault :=
  | succeeds
  | fails (e : PgError)
  | throws (e : JS.Error).

Record State := {
  db : Store;
  plan : list Fault;
  now : Z;
  ui : Local
}.

Definition set_db (v : Store) (s : State) : State :=
  {| db := v; plan := plan s; now := now s; ui := ui s |}.
Definition set_plan (v : list Fault) (s : State) : State :=
  {| db := db s; plan := v; now := now s; ui := ui s |}.
Definition set_ui (v : Local) (s : State) : State :=
  {| db := db s; plan := plan s; now := now s; ui := v |}.
Definition set_now (v : Z) (s : State) : State :=
  {| db := db s; plan := plan s; now := v; ui := ui s |}.

(** The fault met by the next store call (none once the plan is
    exhausted), and the state once that call has been made. *)
Definition next_fault (s : State) : Fault := default succeeds (head (plan s)).
Definition advance (s : State) : State := set_plan (tail (plan s)) s.
Arguments next_fault : simpl never.

Inductive Outcome (A : Type) :=
  | Returned (a : A)
  | Thrown (e : JS.Error).
Arguments Returned {A} a.
Arguments Thrown {A} e.

(** An asynchronous function: from a state to an outcome and the state
    left behind (what was written before a throw stays written). *)
Definition M (A : Type) : Type := State → Outcome A * State.

Definition ret {A} (a : A) : M A := λ s, (Returned a, s).

Definition bind {A B} (m : M A) (k : A → M B) : M B :=
  λ s, match m s with
       | (Returned a, s') => k a s'
       | (Thrown e, s') => (Thrown e, s')
       end.

Definition throw {A} (e : JS.Error) : M A := λ s, (Thrown e, s).

(** [try { m } catch (e) { h e }]. *)
Definition try_catch {A} (m : M A) (h : JS.Error → M A) : M A :=
  λ s, match m s with
       | (Returned a, s') => (Returned a, s')
       | (Thrown e, s') => h e s'
       end.

(** [try { m } finally { f }]: [f] runs on every exit of [m]. *)
Definition finally {A} (m : M A) (f : M unit) : M A :=
  λ s, match m s with
       | (o, s') =>
           match f s' with
           | (Returned _, s'') => (o, s'')
           | (Thrown e, s'') => (Thrown e, s'')
           end
       end.

#[global] Instance M_ret : MRet M := @ret.
#[global] Instance M_bind : MBind M := λ A B k m, bind m k.

(** The state a computation leaves behind, and its value if it returned. *)
Definition after {A} (m : M A) (s : State) : State := (m s).2.
Definition returned {A} (m : M A) (s : State) : option A :=
  match (m s).1 with
  | Returned a => Some a
  | Thrown _ => None
  end.

Definition gets {A} (f : State → A) : M A := λ s, (Returned (f s), s).
Definition modify_ui (f : Local → Local) : M unit :=
  λ s, (Returned tt, set_ui (f (ui s)) s).

(** [when c m]: [if (c) { m }]. *)
Definition when (c : bool) (m : M unit) : M unit := if c then m else ret tt.

(** ** The store query interface *)

Module Pg.

(** The [{ data, error }] object every store call resolves to. *)
Record Response (A : Type) := { data : option A; error : option PgError }.
Arguments data {A} _.
Arguments error {A} _.

Definition ok {A} (a : A) : Response A := {| data := Some a; error := None |}.

(** The result of [.single()] when the filters select no row. *)
Definition no_rows {A} : Response A :=
  {| data := None; error := Some {| code := "PGRST116" |} |}.

(** The result of a write that returns no representation. *)
Definition written : Response unit := {| data := None; error := None |}.

Definition failed {A} (e : PgError) : Response A :=
  {| data := None; error := Some e |}.

(** A query against the tables: its result and the tables afterwards. *)
Definition Query (A : Type) : Type := Store → Response A * Store.

(** Modelled from the spec: the store client itself is an external
    collaborator (section 6: row read with filter predicates and
    ordering/limit; row update with an equality-guard clause returning
    affected-row data or empty; row insert/upsert keyed by a unique
    column).  One call consumes the head of the failure plan: it runs
    the query, or resolves to an error result without touching the
    tables, or throws; a plan that has run out lets every call through. *)
Definition call {A} (q : Query A) : M (Response A) :=
  λ s, match next_fault s with
       | succeeds => let '(r, d) := q (db s) in (Returned r, set_db d (advance s))
       | fails e => (Returned (failed e), advance s)
       | throws e => (Thrown e, advance s)
       end.

(** [from('rides').update(patch).eq('id', id)...filters....select().single()]:
    Modelled from the spec: the conditional update writes the row only
    when it matches the filters at write time, and returns it; with no
    matching row nothing is written and [.single()] reports no rows. *)
Definition update_ride_single (id : string) (filter : Ride → bool)
    (patch : Ride → Ride) : Query Ride :=
  λ d, match rides d !! id with
       | Some r =>
           if filter r
           then (ok (patch r), set_rides (<[id := patch r]> (rides d)) d)
           else (no_rows, d)
       | None => (no_rows, d)
       end.

(** [from('rides').update(patch).eq('id', id)]: no representation is
    returned, and matching no row is not an error. *)
Definition update_ride (id : string) (patch : Ride → Ride) : Query unit :=
  λ d, match rides d !! id with
       | Some r => (written, set_rides (<[id := patch r]> (rides d)) d)
       | None => (written, d)
       end.

(** [from('rides').select(...).eq('id', id).single()]. *)
Definition select_ride_single (id : string) : Query Ride :=
  λ d, match rides d !! id with
       | Some r => (ok r, d)
       | None => (no_rows, d)
       end.

(** Rows of [rides] selected by a filter on the key and the row. *)
Definition rides_where (filter : string → Ride → bool) (d : Store) : list Ride :=
  (List.filter (λ kr : string * Ride, filter kr.1 kr.2) (map_to_list (rides d))).*2.

Definition select_rides (filter : string → Ride → bool) : Query (list Ride) :=
  λ d, (ok (rides_where filter d), d).

(** [.order('created_at', { ascending: false }).limit(n)]. *)
Definition newest_first (a b : Ride) : Prop := created_at b ≤ created_at a.
#[global] Instance newest_first_dec a b : Decision (newest_first a b).
Proof. unfold newest_first. apply _. Defined.

Definition select_rides_newest (filter : string → Ride → bool) (n : nat)
    : Query (list Ride) :=
  λ d, (ok (take n (merge_sort newest_first (rides_where filter d))), d).

(** The same with [.limit(1).maybeSingle()]: the row or null, no error. *)
Definition select_ride_newest_maybe (filter : string → Ride → bool) : Query Ride :=
  λ d, ({| data := head (merge_sort newest_first (rides_where filter d));
           error := None |}, d).

(** [from('drivers')]. *)
Definition select_driver_single (id : string) : Query DriverRow :=
  λ d, match drivers d !! id with
       | Some r => (ok r, d)
       | None => (no_rows, d)
       end.

Definition update_driver (id : string) (patch : DriverRow → DriverRow) : Query unit :=
  λ d, match drivers d !! id with
       | Some r => (written, set_drivers (<[id := patch r]> (drivers d)) d)
       | None => (written, d)
       end.

(** [from('users')] and [from('vehicles')]. *)
Definition select_user_single (id : string) : Query UserRow :=
  λ d, match users d !! id with
       | Some r => (ok r, d)
       | None => (no_rows, d)
       end.

Definition select_vehicle_single (id : string) : Query VehicleRow :=
  λ d, match vehicles d !! id with
       | Some r => (ok r, d)
       | None => (no_rows, d)
       end.

(** [from('fare_matrix').select('*')...filters....single()]: exactly
    one matching row, or the no-rows error. *)
Definition select_fare_matrix_single (filter : FareMatrix → bool) : Query FareMatrix :=
  λ d, match List.filter filter (fare_matrix d) with
       | [f] => (ok f, d)
       | _ => (no_rows, d)
       end.

(** [from('notifications')]. *)
Definition latest_first (a b : Notification) : Prop := n_created_at b ≤ n_created_at a.
#[global] Instance latest_first_dec a b : Decision (latest_first a b).
Proof. unfold latest_first. apply _. Defined.

Definition select_notifications (filter : Notification → bool) : Query (list Notification) :=
  λ d, (ok (List.filter filter (notifications d)), d).

Definition select_notifications_latest (filter : Notification → bool)
    (limit : option nat) : Query (list Notification) :=
  λ d, let rows := merge_sort latest_first (List.filter filter (notifications d)) in
       (ok (match limit with Some n => take n rows | None => rows end), d).

Definition update_notifications (filter : Notification → bool)
    (patch : Notification → Notification) : Query unit :=
  λ d, (written,
        set_notifications
          (List.map (λ n, if filter n then patch n else n) (notifications d)) d).

Definition insert_notification (n : Notification) : Query unit :=
  λ d, (written, set_notifications (notifications d ++ [n]) d).

(** [from('live_locations')], unique on [user_id]. *)
Definition upsert_live_location (user_id : string) (l : LiveLocation)
    : Query (list LiveLocation) :=
  λ d, (ok [l], set_live_locations (<[user_id := l]> (live_locations d)) d).

Definition insert_live_location (user_id : string) (l : LiveLocation) : Query unit :=
  λ d, match live_locations d !! user_id with
       | Some _ => (failed {| code := "23505" |}, d)
       | None => (written, set_live_locations (<[user_id := l]> (live_locations d)) d)
       end.

Definition update_live_location (user_id : string) (l : LiveLocation) : Query unit :=
  λ d, match live_locations d !! user_id with
       | Some _ => (written, set_live_locations (<[user_id := l]> (live_locations d)) d)
       | None => (written, d)
       end.

(** [from('scheduled_bookings')], ordered by [scheduled_time] ascending. *)
Definition earliest_first (a b : ScheduledBooking) : Prop :=
  scheduled_time a ≤ scheduled_time b.
#[global] Instance earliest_first_dec a b : Decision (earliest_first a b).
Proof. unfold earliest_first. apply _. Defined.

Definition select_scheduled (filter : ScheduledBooking → bool)
    : Query (list ScheduledBooking) :=
  λ d, (ok (merge_sort earliest_first (List.filter filter (scheduled_bookings d))), d).

Definition select_scheduled_maybe (filter : ScheduledBooking → bool)
    : Query ScheduledBooking :=
  λ d, ({| data := head (merge_sort earliest_first
                           (List.filter filter (scheduled_bookings d)));
           error := None |}, d).

End Pg.

(** ** Setters of the provider's state, as the source calls them *)

Definition setCurrentRide (v : option Ride) : M unit := modify_ui (set_currentRide v).
Definition setPendingRides (v : list Ride) : M unit := modify_ui (set_pendingRides v).
(** [setPendingRides(prev => f(prev))]. *)
Definition updatePendingRides (f : list Ride → list Ride) : M unit :=
  modify_ui (λ l, set_pendingRides (f (pendingRides l)) l).
Definition setScheduledBookings (v : list ScheduledBooking) : M unit :=
  modify_ui (set_scheduledBookings v).
Definition setAssignedScheduledBooking (v : option ScheduledBooking) : M unit :=
  modify_ui (set_assignedScheduledBooking v).
Definition setLoading (v : bool) : M unit := modify_ui (set_loading v).
Definition setError (v : option string) : M unit := modify_ui (set_error v).
Definition setLastNotificationCheck (v : Z) : M unit :=
  modify_ui (set_lastNotificationCheck v).
Definition setTripStartTime (v : option Z) : M unit := modify_ui (set_tripStartTime v).
Definition setTripStartLocation (v : option (float * float)) : M unit :=
  modify_ui (set_tripStartLocation v).
Definition setTotalDistanceTraveled (v : float) : M unit :=
  modify_ui (set_totalDistanceTraveled v).
Definition setLastKnownLocation (v : option (float * float)) : M unit :=
  modify_ui (set_lastKnownLocation v).
Definition updateDriverStatusFromRide (v : DriverStatus) : M unit :=
  modify_ui (set_authStatus (Some v)).

(** [.filter(r => r.id !== rideId)]. *)
Definition without_ride (rideId : string) (l : list Ride) : list Ride :=
  List.filter (λ r, negb (bool_decide (ride_id r = rideId))) l.

(** [Math.floor(1000 + Math.random() * 9000).toString()] for the draw
    [r] of [Math.random()]. *)
Definition otp_number (r : Q) : Z := JS.floor (1000 + r * 9000)%Q.
Definition otp_of_draw (r : Q) : string := JS.toString (otp_number r).

(** The statuses of a ride that is assigned and not finished:
    [.in('status', ['accepted', 'driver_arrived', 'in_progress'])]. *)
Definition active_status (s : RideStatus) : bool :=
  match s with
  | accepted | driver_arrived | in_progress => true
  | _ => false
  end.

(** [.eq('status', 'requested').is('driver_id', null)]. *)
Definition still_open (r : Ride) : bool :=
  bool_decide (status r = requested) && bool_decide (driver_id r = None).

(** [.contains('data', { ride_id: rideId })]. *)
Definition data_contains_ride (rideId : string) (n : Notification) : bool :=
  match n_data n with
  | Some d => bool_decide (data_ride_id d = Some rideId)
  | None => false
  end.

(** [.eq('user_id', u).eq('type', 'ride_request')] and the unread ones. *)
Definition ride_request_of (u : string) (n : Notification) : bool :=
  bool_decide (n_user_id n = u) && bool_decide (n_type n = ride_request).

Definition unread_ride_request_of (u : string) (n : Notification) : bool :=
  ride_request_of u n && bool_decide (n_status n = unread).

(** [notifications.map(n => n.data?.ride_id).filter(Boolean)]. *)
Definition ride_ids_of (ns : list Notification) : list string :=
  omap (λ n, d ← n_data n; i ← data_ride_id d;
             if JS.truthy (Some i) then Some i else None) ns.

(** ** The first provider ([src/unnamed/part_001]) *)

Module Basic.

(** The [fareBreakdown] and [completionData] objects of [completeRide]. *)
Record FareBreakdown := {
  fb_base_fare : float;
  fb_distance_fare : float;
  total_fare : float;
  fb_per_km_rate : float
}.

Record CompletionData := {
  distance : float;
  duration : float;
  fareBreakdown : FareBreakdown;
  cd_pickup_address : string;
  cd_destination_address : string;
  cd_booking_type : BookingType
}.

Record Completion := { success : bool; completionData : option CompletionData }.

Section Provider.

Variable env : Env.
Variable driver : option Driver.

(** The configuration test that opens every loader of the manager. *)
Definition not_configured : bool :=
  match EXPO_PUBLIC_SUPABASE_URL env, EXPO_PUBLIC_SUPABASE_ANON_KEY env with
  | Some supabaseUrl, Some supabaseKey =>
      negb (JS.truthy (Some supabaseUrl))
      || negb (JS.truthy (Some supabaseKey))
      || JS.includes supabaseUrl "your-project-ref"
      || JS.includes supabaseUrl "placeholder"
      || bool_decide (supabaseUrl = "https://your-project-ref.supabase.co")
      || JS.includes supabaseKey "your-anon-key"
      || JS.includes supabaseKey "placeholder"
      || bool_decide (supabaseKey = "your-anon-key-here")
  | _, _ => true
  end.

Definition loadAssignedRide : M unit :=
  match driver_id_of driver with
  | None => mret tt
  | Some did =>
      try_catch
        (if not_configured then setCurrentRide None
         else
           res ← Pg.call (Pg.select_rides_newest
                    (λ _ r, bool_decide (driver_id r = Some did)
                            && active_status (status r)) 1);
           match Pg.error res with
           | Some _ => mret tt
           | None =>
               match Pg.data res with
               | Some (ride :: _) => setCurrentRide (Some ride)
               | _ => setCurrentRide None
               end
           end)
        (λ _, mret tt)
  end.

Definition scheduled_active (s : string) : bool :=
  bool_decide (s ∈ ["assigned"; "confirmed"; "driver_arrived"; "in_progress"]).

Definition loadAssignedScheduledBooking : M unit :=
  match driver_id_of driver with
  | None => mret tt
  | Some did =>
      try_catch
        (if not_configured then setScheduledBookings []
         else
           res ← Pg.call (Pg.select_scheduled
                    (λ b, bool_decide (assigned_driver_id b = Some did)
                          && scheduled_active (sb_status b)));
           match Pg.error res with
           | Some _ => mret tt
           | None =>
               match Pg.data res with
               | Some (b :: bs) => setScheduledBookings (b :: bs)
               | _ => setScheduledBookings []
               end
           end)
        (λ _, mret tt)
  end.

Definition loadPendingRides : M unit :=
  match driver_user_id_of driver with
  | None => mret tt
  | Some uid =>
      try_catch
        (if not_configured then setPendingRides []
         else
           res ← Pg.call (Pg.select_notifications_latest
                    (unread_ride_request_of uid) (Some 10%nat));
           match Pg.error res with
           | Some _ => mret tt
           | None =>
               match Pg.data res with
               | Some (n :: ns) =>
                   let pendingRideIds := ride_ids_of (n :: ns) in
                   match pendingRideIds with
                   | [] => mret tt
                   | _ =>
                       rs ← Pg.call (Pg.select_rides
                              (λ k r, bool_decide (k ∈ pendingRideIds)
                                      && still_open r));
                       match Pg.error rs, Pg.data rs with
                       | None, Some pending => setPendingRides pending
                       | _, _ => mret tt
                       end
                   end
               | _ => setPendingRides []
               end
           end)
        (λ _, mret tt)
  end.

Definition checkForNewRides : M unit :=
  match driver, driver_id_of driver with
  | Some d, Some _ =>
      try_catch
        (loadAssignedRide;;
         loadAssignedScheduledBooking;;
         when (bool_decide (auth_status d = online)) loadPendingRides)
        (λ _, setError (Some "Failed to check for rides"))
  | _, _ => mret tt
  end.

Definition acceptRide (rideId : string) : M bool :=
  match driver_id_of driver with
  | None => mret false
  | Some did =>
      finally
        (try_catch
           (setLoading true;;
            t ← gets now;
            res ← Pg.call (Pg.update_ride_single rideId still_open
                     (λ r, set_updated_at t
                             (set_status accepted (set_driver_id (Some did) r))));
            match Pg.error res with
            | Some _ => setError (Some "Failed to accept ride");; mret false
            | None =>
                match Pg.data res with
                | Some updatedRide =>
                    setCurrentRide (Some updatedRide);;
                    updatePendingRides (without_ride rideId);;
                    Pg.call (Pg.update_driver did (set_drv_status busy));;
                    mret true
                | None => mret false
                end
            end)
           (λ _, setError (Some "Failed to accept ride");; mret false))
        (setLoading false)
  end.

Definition declineRide (rideId : string) : M bool :=
  try_catch
    (updatePendingRides (without_ride rideId);;
     match driver_user_id_of driver with
     | Some uid =>
         Pg.call (Pg.update_notifications
                    (λ n, ride_request_of uid n && data_contains_ride rideId n)
                    (set_n_status read));;
         mret tt
     | None => mret tt
     end;;
     mret true)
    (λ _, mret false).

(** The shape shared by [markDriverArrived] and [startRide]: an
    unguarded status update of the row. *)
Definition update_status (rideId : string) (st : RideStatus) (failure : string)
    : M bool :=
  finally
    (try_catch
       (setLoading true;;
        t ← gets now;
        res ← Pg.call (Pg.update_ride_single rideId (λ _, true)
                 (λ r, set_updated_at t (set_status st r)));
        match Pg.error res with
        | Some _ => setError (Some failure);; mret false
        | None =>
            match Pg.data res with
            | Some updatedRide => setCurrentRide (Some updatedRide);; mret true
            | None => mret false
            end
        end)
       (λ _, setError (Some failure);; mret false))
    (setLoading false).

Definition markDriverArrived (rideId : string) : M bool :=
  update_status rideId driver_arrived "Failed to update ride status".

Definition startRide (rideId : string) : M bool :=
  update_status rideId in_progress "Failed to start ride".

Definition generatePickupOTP (random : Q) (rideId : string) : M (option string) :=
  try_catch
    (let otp := otp_of_draw random in
     t ← gets now;
     res ← Pg.call (Pg.update_ride rideId
              (λ r, set_updated_at t (set_pickup_otp (Some otp) r)));
     match Pg.error res with
     | Some _ => setError (Some "Failed to generate OTP");; mret None
     | None => mret (Some otp)
     end)
    (λ _, setError (Some "Failed to generate OTP");; mret None).

Definition verifyPickupOTP (rideId otp : string) : M bool :=
  finally
    (try_catch
       (setLoading true;;
        t ← gets now;
        res ← Pg.call (Pg.update_ride_single rideId
                 (λ r, bool_decide (pickup_otp r = Some otp))
                 (λ r, set_updated_at t
                         (set_pickup_otp None (set_status in_progress r))));
        match Pg.error res with
        | Some _ => setError (Some "Invalid OTP");; mret false
        | None =>
            match Pg.data res with
            | Some updatedRide => setCurrentRide (Some updatedRide);; mret true
            | None => setError (Some "Invalid OTP");; mret false
            end
        end)
       (λ _, setError (Some "Failed to verify OTP");; mret false))
    (setLoading false).

Definition generateDropOTP (random : Q) (rideId : string) : M (option string) :=
  try_catch
    (let otp := otp_of_draw random in
     t ← gets now;
     res ← Pg.call (Pg.update_ride rideId
              (λ r, set_updated_at t (set_drop_otp (Some otp) r)));
     match Pg.error res with
     | Some _ => setError (Some "Failed to generate OTP");; mret None
     | None => mret (Some otp)
     end)
    (λ _, setError (Some "Failed to generate OTP");; mret None).

Definition failure : Completion := {| success := false; completionData := None |}.

Definition completeRide (rideId : string) : M Completion :=
  finally
    (try_catch
       (setLoading true;;
        t ← gets now;
        res ← Pg.call (Pg.update_ride_single rideId (λ _, true)
                 (λ r, set_updated_at t (set_drop_otp None (set_status completed r))));
        match Pg.error res with
        | Some _ => setError (Some "Failed to complete ride");; mret failure
        | None =>
            match Pg.data res with
            | Some updatedRide =>
                setCurrentRide None;;
                match driver_id_of driver with
                | Some did =>
                    Pg.call (Pg.update_driver did (set_drv_status online));;
                    mret tt
                | None => mret tt
                end;;
                let completionData :=
                  {| distance := JS.num_or (distance_km updatedRide) 0;
                     duration := JS.num_or (duration_minutes updatedRide) 0;
                     fareBreakdown :=
                       {| fb_base_fare := 50;
                          fb_distance_fare :=
                            (JS.num_or (distance_km updatedRide) 0 * 10)%float;
                          total_fare := JS.num_or (fare_amount updatedRide) 0;
                          fb_per_km_rate := 10 |};
                     cd_pickup_address := pickup_address updatedRide;
                     cd_destination_address := destination_address updatedRide;
                     cd_booking_type := booking_type updatedRide |} in
                mret {| success := true; completionData := Some completionData |}
            | None => mret failure
            end
        end)
       (λ _, setError (Some "Failed to complete ride");; mret failure))
    (setLoading false).

Definition cancelRide (rideId reason : string) : M bool :=
  finally
    (try_catch
       (setLoading true;;
        t ← gets now;
        res ← Pg.call (Pg.update_ride_single rideId (λ _, true)
                 (λ r, set_updated_at t
                         (set_cancelled_by_driver driver
                            (set_cancellation_reason (Some reason)
                               (set_status cancelled r)))));
        match Pg.error res with
        | Some _ => setError (Some "Failed to cancel ride");; mret false
        | None =>
            match Pg.data res with
            | Some updatedRide =>
                setCurrentRide None;;
                match driver_id_of driver with
                | Some did =>
                    Pg.call (Pg.update_driver did (set_drv_status online));;
                    mret tt
                | None => mret tt
                end;;
                mret true
            | None => mret false
            end
        end)
       (λ _, setError (Some "Failed to cancel ride");; mret false))
    (setLoading false).

Definition refreshRides : M unit := checkForNewRides.

End Provider.

End Basic.

(** ** The extended provider ([src/unnamed/part_002]) *)

Module Tracked.

(** The fields of [RideNotificationManager] the loaders read: the
    driver and loading flag given by [setDriver], and whether each
    callback has been registered ([setCallbacks] registers
    [setPendingRides] and [setCurrentRide], [setScheduledBookingCallback]
    registers [setAssignedScheduledBooking]). *)
Record Manager := {
  authDriver : option Driver;
  authLoading : bool;
  onRideUpdate : bool;
  onCurrentRideUpdate : bool;
  onAssignedScheduledBookingUpdate : bool
}.

(** The fare breakdown of [completeRide]: the rental object or the
    regular/airport/outstation object. *)
Record RentalFare := {
  rf_base_fare : float;
  rf_hourly_rate : float;
  rf_rental_hours : float;
  rf_hourly_fare : float;
  rf_platform_fee : float;
  rf_total_fare : float
}.

Record RegularFare := {
  gf_base_fare : float;
  gf_distance_fare : float;
  gf_time_fare : float;
  gf_platform_fee : float;
  gf_minimum_fare : float;
  gf_total_fare : float;
  gf_per_km_rate : float;
  gf_per_minute_rate : float
}.

Inductive FareBreakdown :=
  | RentalBreakdown (f : RentalFare)
  | RegularBreakdown (f : RegularFare).

Definition total_fare (b : FareBreakdown) : float :=
  match b with
  | RentalBreakdown f => rf_total_fare f
  | RegularBreakdown f => gf_total_fare f
  end.

Record CompletionData := {
  distance : float;
  duration : Z;
  fareBreakdown : FareBreakdown;
  cd_pickup_address : string;
  cd_destination_address : string;
  cd_booking_type : BookingType;
  cd_rental_hours : option float
}.

Record Completion := { success : bool; completionData : option CompletionData }.

Definition failure : Completion := {| success := false; completionData := None |}.

(** The result of [validateCompleteDriverProfile]. *)
Record Validation := { v_success : bool; v_error : option string }.

(** The rental branch of the fare computation of [completeRide]. *)
Definition rental_fare (rideData : Ride) (fareMatrix : FareMatrix) : RentalFare :=
  let rentalHours := JS.num_or (rental_hours rideData) 4 in
  let hourlyRate := JS.num_or (hourly_rate fareMatrix) 150 in
  let hourlyFare := (rentalHours * hourlyRate)%float in
  {| rf_base_fare := base_fare fareMatrix;
     rf_hourly_rate := hourlyRate;
     rf_rental_hours := rentalHours;
     rf_hourly_fare := hourlyFare;
     rf_platform_fee := ((hourlyFare * platform_fee_percent fareMatrix) / 100)%float;
     rf_total_fare :=
       (base_fare fareMatrix + hourlyFare
        + ((hourlyFare * platform_fee_percent fareMatrix) / 100))%float |}.

(** The regular/airport/outstation branch. *)
Definition regular_fare (fareMatrix : FareMatrix) (distance duration : float)
    : RegularFare :=
  let baseFare := base_fare fareMatrix in
  let perKmRate := per_km_rate fareMatrix in
  let perMinuteRate := JS.num_or (per_minute_rate fareMatrix) 0 in
  let distanceFare := (distance * perKmRate)%float in
  let timeFare := (duration * perMinuteRate)%float in
  let subtotal := (baseFare + distanceFare + timeFare)%float in
  let platformFee := ((subtotal * platform_fee_percent fareMatrix) / 100)%float in
  let calculatedTotal := (subtotal + platformFee)%float in
  let totalFare := JS.max calculatedTotal (minimum_fare fareMatrix) in
  {| gf_base_fare := baseFare;
     gf_distance_fare := distanceFare;
     gf_time_fare := timeFare;
     gf_platform_fee := platformFee;
     gf_minimum_fare := minimum_fare fareMatrix;
     gf_total_fare := totalFare;
     gf_per_km_rate := perKmRate;
     gf_per_minute_rate := perMinuteRate |}.

(** "Calculate completion data based on booking type". *)
Definition calculate_fare (rideData : Ride) (fareMatrix : FareMatrix)
    (distance : float) (duration : Z) : FareBreakdown :=
  if bool_decide (booking_type rideData = rental)
  then RentalBreakdown (rental_fare rideData fareMatrix)
  else RegularBreakdown (regular_fare fareMatrix distance (JS.of_int duration)).

(** [.in('data->>ride_id', rideIds)]. *)
Definition data_ride_in (rideIds : list string) (n : Notification) : bool :=
  match n_data n with
  | Some d =>
      match data_ride_id d with
      | Some i => bool_decide (i ∈ rideIds)
      | None => false
      end
  | None => false
  end.

(** [notifications.map(n => n.data?.ride_id || n.data?.rideId).filter(Boolean)]. *)
Definition ride_ids_either (ns : list Notification) : list string :=
  omap (λ n, d ← n_data n;
             if JS.truthy (data_ride_id d) then data_ride_id d
             else if JS.truthy (data_rideId d) then data_rideId d
             else None) ns.

(** The merge of [processNewNotifications]:
    [prev => [...prev, ...rides.filter(r => !existingIds.has(r.id))]]. *)
Definition merge_new (rides prev : list Ride) : list Ride :=
  let existingIds : gset string := list_to_set (ride_id <$> prev) in
  prev ++ List.filter (λ r, bool_decide (ride_id r ∉ existingIds)) rides.

Section Manager.

Variable env : Env.
Variable this : Manager.

(** "Validate Supabase configuration before making requests". *)
Definition not_configured : bool :=
  match EXPO_PUBLIC_SUPABASE_URL env with
  | Some testUrl =>
      negb (JS.truthy (Some testUrl))
      || bool_decide (testUrl = "your_supabase_url_here")
      || bool_decide (testUrl = "undefined")
  | None => true
  end.

(** [if (this.onCurrentRideUpdate) { this.onCurrentRideUpdate(v) }]
    and its two siblings. *)
Definition notifyCurrentRide (v : option Ride) : M unit :=
  when (onCurrentRideUpdate this) (setCurrentRide v).
Definition notifyRides (v : list Ride) : M unit :=
  when (onRideUpdate this) (setPendingRides v).
Definition notifyAssignedScheduledBooking (v : option ScheduledBooking) : M unit :=
  when (onAssignedScheduledBookingUpdate this) (setAssignedScheduledBooking v).

Definition loadAssignedRide : M unit :=
  try_catch
    (match driver_id_of (authDriver this) with
     | None => notifyCurrentRide None
     | Some did =>
         if not_configured then notifyCurrentRide None
         else
           res ← Pg.call (Pg.select_ride_newest_maybe
                    (λ _ r, bool_decide (driver_id r = Some did)
                            && active_status (status r)
                            && bool_decide (booking_type r ∈
                                 [regular; rental; outstation; airport])));
           match Pg.error res with
           | Some assignedError =>
               if bool_decide (code assignedError ≠ "PGRST116")
               then notifyCurrentRide None
               else notifyCurrentRide (Pg.data res)
           | None => notifyCurrentRide (Pg.data res)
           end
     end)
    (λ _, notifyCurrentRide None).

Definition loadPendingRides : M unit :=
  try_catch
    (match driver_user_id_of (authDriver this) with
     | None => mret tt
     | Some uid =>
         if not_configured then notifyRides []
         else
           res ← Pg.call (Pg.select_notifications_latest
                    (unread_ride_request_of uid) (Some 10%nat));
           match Pg.error res with
           | Some _ => mret tt
           | None =>
               match Pg.data res with
               | Some (n :: ns) =>
                   let rideIds := ride_ids_of (n :: ns) in
                   match rideIds with
                   | [] => notifyRides []
                   | _ =>
                       declined ← Pg.call (Pg.select_notifications
                                    (λ m, bool_decide (n_user_id m = uid)
                                          && bool_decide (n_type m = ride_declined)
                                          && data_ride_in rideIds m));
                       let declinedRideIds : gset string :=
                         list_to_set (ride_ids_of (default [] (Pg.data declined))) in
                       let availableRideIds :=
                         List.filter (λ rideId, bool_decide (rideId ∉ declinedRideIds))
                           rideIds in
                       match availableRideIds with
                       | [] => notifyRides []
                       | _ =>
                           rs ← Pg.call (Pg.select_rides
                                  (λ k r, bool_decide (k ∈ availableRideIds)
                                          && still_open r));
                           match Pg.error rs with
                           | Some _ => mret tt
                           | None => notifyRides (default [] (Pg.data rs))
                           end
                       end
                   end
               | _ => notifyRides []
               end
           end
     end)
    (λ _, mret tt).

Definition loadAssignedScheduledBooking : M unit :=
  try_catch
    (match driver_id_of (authDriver this) with
     | None => mret tt
     | Some did =>
         res ← Pg.call (Pg.select_scheduled_maybe
                  (λ b, bool_decide (assigned_driver_id b = Some did)
                        && bool_decide (sb_status b = "assigned")));
         match Pg.error res with
         | Some _ => mret tt
         | None => notifyAssignedScheduledBooking (Pg.data res)
         end
     end)
    (λ _, mret tt).

Definition checkForNewRides : M unit :=
  try_catch
    (match authLoading this, authDriver this with
     | false, Some d =>
         if bool_decide (auth_status d = offline) then mret tt
         else
           loadAssignedRide;;
           when (bool_decide (auth_status d = online)) loadPendingRides;;
           loadAssignedScheduledBooking
     | _, _ => mret tt
     end)
    (λ _, mret tt).

End Manager.

Section Provider.

Variable env : Env.
Variable this : Manager.
Variable driver : option Driver.
Variable currentLocation : option Coords.

Definition validateCompleteDriverProfile (driver : option Driver) : Validation :=
  let fail msg := {| v_success := false; v_error := Some msg |} in
  match driver with
  | None => fail "No driver data available"
  | Some d =>
      if negb (auth_is_verified d) then fail "Driver account is not verified"
      else if negb (JS.truthy (u ← auth_user d; full_name u))
      then fail "Driver full name is missing"
      else if negb (JS.truthy (u ← auth_user d; phone_number u))
      then fail "Driver phone number is missing"
      else
        match auth_vehicle d with
        | None => fail "No vehicle assigned to driver"
        | Some v =>
            if negb (JS.truthy (make v)) || negb (JS.truthy (model v))
               || negb (JS.truthy (registration_number v))
            then fail "Vehicle information is incomplete"
            else {| v_success := true; v_error := None |}
        end
  end.

Definition processNewNotifications (notifications : list Notification) : M unit :=
  try_catch
    (let rideIds := ride_ids_either notifications in
     match rideIds with
     | [] => mret tt
     | _ =>
         res ← Pg.call (Pg.select_rides
                  (λ k r, bool_decide (k ∈ rideIds) && still_open r));
         match Pg.error res with
         | Some _ => mret tt
         | None =>
             match Pg.data res with
             | Some (r :: rs) => updatePendingRides (merge_new (r :: rs))
             | _ => mret tt
             end
         end
     end)
    (λ _, mret tt).

Definition checkForMissedNotifications : M unit :=
  match driver_user_id_of driver with
  | None => mret tt
  | Some uid =>
      try_catch
        (since ← gets (λ s, lastNotificationCheck (ui s));
         res ← Pg.call (Pg.select_notifications_latest
                  (λ n, unread_ride_request_of uid n
                        && bool_decide (since ≤ n_created_at n)) None);
         match Pg.error res with
         | Some _ => mret tt
         | None =>
             match Pg.data res with
             | Some (n :: ns) => processNewNotifications (n :: ns)
             | _ => mret tt
             end;;
             t ← gets now;
             setLastNotificationCheck t
         end)
        (λ _, mret tt)
  end.

(** "Helper function to start location sharing". *)
Definition startLocationSharing : M bool :=
  match driver_user_id_of driver, currentLocation with
  | Some uid, Some coords =>
      try_catch
        (t ← gets now;
         let locationData := {| loc_coords := coords; loc_updated_at := t |} in
         up ← Pg.call (Pg.upsert_live_location uid locationData);
         match Pg.error up with
         | Some _ =>
             ins ← Pg.call (Pg.insert_live_location uid locationData);
             match Pg.error ins with
             | Some _ =>
                 upd ← Pg.call (Pg.update_live_location uid locationData);
                 match Pg.error upd with
                 | Some _ => mret false
                 | None => mret true
                 end
             | None => mret true
             end
         | None => mret true
         end)
        (λ _, mret false)
  | _, _ => mret false
  end.

Definition updateDriverStatus (st : DriverStatus) : M unit :=
  match driver_id_of driver with
  | None => mret tt
  | Some did =>
      try_catch
        (res ← Pg.call (Pg.update_driver did (set_drv_status st));
         match Pg.error res with
         | Some e => throw {| JS.message := code e |}
         | None => mret tt
         end)
        (λ e, throw e)
  end.

(** The three "debug queries" that open [acceptRide]; their results
    are only logged. *)
Definition debugQueries (did : string) : M unit :=
  debugDriver ← Pg.call (Pg.select_driver_single did);
  match d ← Pg.data debugDriver; drv_user_id d with
  | Some u =>
      if JS.truthy (Some u) then Pg.call (Pg.select_user_single u);; mret tt
      else mret tt
  | None => mret tt
  end;;
  match d ← Pg.data debugDriver; drv_vehicle_id d with
  | Some v =>
      if JS.truthy (Some v) then Pg.call (Pg.select_vehicle_single v);; mret tt
      else mret tt
  | None => mret tt
  end.

Definition acceptRide (rideId : string) : M bool :=
  match driver, driver_id_of driver, driver_user_id_of driver with
  | Some d, Some did, Some _ =>
      try_catch
        (debugQueries did;;
         let profileValidation := validateCompleteDriverProfile driver in
         if negb (v_success profileValidation) then mret false
         else if negb (auth_is_verified d) then mret false
         else if negb (JS.truthy (u ← auth_user d; full_name u))
                 || negb (JS.truthy (u ← auth_user d; phone_number u))
         then mret false
         else
           locationShared ← startLocationSharing;
           if negb locationShared then mret false
           else
             t ← gets now;
             res ← Pg.call (Pg.update_ride_single rideId still_open
                      (λ r, set_updated_at t
                              (set_driver_id (Some did) (set_status accepted r))));
             match Pg.error res with
             | Some rideError =>
                 if bool_decide (code rideError = "PGRST116") then mret false
                 else mret false
             | None =>
                 match Pg.data res with
                 | None => mret false
                 | Some updatedRide =>
                     try_catch (updateDriverStatus busy) (λ _, mret tt);;
                     setCurrentRide (Some updatedRide);;
                     updatePendingRides (without_ride rideId);;
                     mret true
                 end
             end)
        (λ _, mret false)
  | _, _, _ => mret false
  end.

Definition declineRide (rideId : string) : M bool :=
  match driver_user_id_of driver with
  | None => setError (Some "Driver not available");; mret false
  | Some uid =>
      try_catch
        (Pg.call (Pg.update_notifications
                    (λ n, ride_request_of uid n && data_contains_ride rideId n)
                    (set_n_status notif_cancelled));;
         t ← gets now;
         Pg.call (Pg.insert_notification
                    {| n_user_id := uid;
                       n_type := ride_declined;
                       n_status := read;
                       n_data := Some {| data_ride_id := Some rideId;
                                         data_rideId := None |};
                       n_created_at := t |});;
         updatePendingRides (without_ride rideId);;
         mret true)
        (λ _, setError (Some "Failed to decline ride");; mret false)
  end.

(** Reading a property of a null [updatedRide] throws a [TypeError]. *)
Definition type_error : JS.Error :=
  {| JS.message := "Cannot read properties of null" |}.

(** The shape shared by [markDriverArrived] and [startRide]. *)
Definition update_status (rideId : string) (st : RideStatus) (failure : string)
    : M bool :=
  finally
    (try_catch
       (setLoading true;;
        t ← gets now;
        res ← Pg.call (Pg.update_ride_single rideId (λ _, true)
                 (λ r, set_updated_at t (set_status st r)));
        match Pg.error res with
        | Some _ => setError (Some failure);; mret false
        | None =>
            match Pg.data res with
            | Some updatedRide => setCurrentRide (Some updatedRide);; mret true
            | None => throw type_error
            end
        end)
       (λ _, setError (Some failure);; mret false))
    (setLoading false).

Definition markDriverArrived (rideId : string) : M bool :=
  update_status rideId driver_arrived "Failed to update ride status".

Definition startRide (rideId : string) : M bool :=
  update_status rideId in_progress "Failed to start ride".

Definition generatePickupOTP (random : Q) (rideId : string) : M (option string) :=
  try_catch
    (let otp := otp_of_draw random in
     t ← gets now;
     res ← Pg.call (Pg.update_ride rideId
              (λ r, set_updated_at t (set_pickup_otp (Some otp) r)));
     match Pg.error res with
     | Some _ => setError (Some "Failed to generate OTP");; mret None
     | None => mret (Some otp)
     end)
    (λ _, setError (Some "Failed to generate OTP");; mret None).

Definition position (c : Coords) : float * float := (latitude c, longitude c).

Definition verifyPickupOTP (rideId otp : string) : M bool :=
  finally
    (try_catch
       (setLoading true;;
        fetched ← Pg.call (Pg.select_ride_single rideId);
        match Pg.error fetched, Pg.data fetched with
        | None, Some ride =>
            if bool_decide (pickup_otp ride ≠ Some otp)
            then setError (Some "Incorrect OTP");; mret false
            else
              t ← gets now;
              res ← Pg.call (Pg.update_ride_single rideId (λ _, true)
                       (λ r, set_updated_at t
                               (set_pickup_otp None (set_status in_progress r))));
              match Pg.error res with
              | Some _ => setError (Some "Failed to start ride");; mret false
              | None =>
                  let startLocation := position <$> currentLocation in
                  setTripStartTime (Some t);;
                  setTripStartLocation startLocation;;
                  setTotalDistanceTraveled 0;;
                  setLastKnownLocation startLocation;;
                  setCurrentRide (Pg.data res);;
                  mret true
              end
        | _, _ => setError (Some "Failed to verify OTP");; mret false
        end)
       (λ _, setError (Some "Failed to verify OTP");; mret false))
    (setLoading false).

Definition generateDropOTP (random : Q) (rideId : string) : M (option string) :=
  try_catch
    (let otp := otp_of_draw random in
     t ← gets now;
     res ← Pg.call (Pg.update_ride rideId
              (λ r, set_updated_at t (set_drop_otp (Some otp) r)));
     match Pg.error res with
     | Some _ => setError (Some "Failed to generate drop OTP");; mret None
     | None => mret (Some otp)
     end)
    (λ _, setError (Some "Failed to generate drop OTP");; mret None).

(** "Reset trip tracking". *)
Definition resetTripTracking : M unit :=
  setTripStartTime None;;
  setTripStartLocation None;;
  setTotalDistanceTraveled 0;;
  setLastKnownLocation None.

Definition completeRide (rideId : string) : M Completion :=
  finally
    (try_catch
       (setLoading true;;
        endTime ← gets now;
        started ← gets (λ s, tripStartTime (ui s));
        travelled ← gets (λ s, totalDistanceTraveled (ui s));
        let actualDuration :=
          match started with
          | Some startTime =>
              JS.round (JS.value (JS.of_int (endTime - startTime)
                                  / JS.of_int (1000 * 60))%float)
          | None => 25
          end in
        let actualDistance :=
          if (0 <? travelled)%float then travelled else 5.2%float in
        fetched ← Pg.call (Pg.select_ride_single rideId);
        match Pg.error fetched, Pg.data fetched with
        | None, Some rideData =>
            fare ← Pg.call (Pg.select_fare_matrix_single
                     (λ f, bool_decide (fm_booking_type f = booking_type rideData)
                           && bool_decide (fm_vehicle_type f = vehicle_type rideData)
                           && bool_decide (is_active f = true)));
            match Pg.error fare, Pg.data fare with
            | None, Some fareMatrix =>
                let fareBreakdown :=
                  calculate_fare rideData fareMatrix actualDistance actualDuration in
                let totalFare := total_fare fareBreakdown in
                let completionData :=
                  {| distance := actualDistance;
                     duration := actualDuration;
                     fareBreakdown := fareBreakdown;
                     cd_pickup_address := pickup_address rideData;
                     cd_destination_address := destination_address rideData;
                     cd_booking_type := booking_type rideData;
                     cd_rental_hours := rental_hours rideData |} in
                res ← Pg.call (Pg.update_ride_single rideId (λ _, true)
                         (λ r, set_updated_at endTime
                                 (set_payment_status (Some "completed")
                                    (set_duration_minutes
                                       (Some (JS.of_int actualDuration))
                                       (set_distance_km (Some actualDistance)
                                          (set_fare_amount (Some totalFare)
                                             (set_status completed r)))))));
                match Pg.error res with
                | Some _ => setError (Some "Failed to complete ride");; mret failure
                | None =>
                    match driver, driver_id_of driver with
                    | Some d, Some did =>
                        Pg.call (Pg.update_driver did
                                   (λ row, set_drv_total_rides
                                             (Some (JS.int_or (auth_total_rides d) 0 + 1))
                                             (set_drv_status online row)));;
                        mret tt
                    | _, _ => mret tt
                    end;;
                    resetTripTracking;;
                    setCurrentRide None;;
                    updateDriverStatusFromRide online;;
                    mret {| success := true; completionData := Some completionData |}
                end
            | _, _ =>
                setError (Some "Fare calculation failed - no fare matrix found");;
                mret failure
            end
        | _, _ => setError (Some "Failed to fetch ride data");; mret failure
        end)
       (λ _, setError (Some "Failed to complete ride");; mret failure))
    (setLoading false).

Definition cancelRide (rideId reason : string) : M bool :=
  finally
    (try_catch
       (setLoading true;;
        t ← gets now;
        res ← Pg.call (Pg.update_ride_single rideId (λ _, true)
                 (λ r, set_updated_at t
                         (set_cancellation_reason (Some reason)
                            (set_cancelled_by_driver driver
                               (set_status cancelled r)))));
        match Pg.error res with
        | Some _ => setError (Some "Failed to cancel ride");; mret false
        | None =>
            match driver_id_of driver with
            | Some did =>
                Pg.call (Pg.update_driver did (set_drv_status online));;
                updateDriverStatusFromRide online
            | None => mret tt
            end;;
            resetTripTracking;;
            setCurrentRide None;;
            mret true
        end)
       (λ _, setError (Some "Failed to cancel ride");; mret false))
    (setLoading false).

Definition refreshRides : M unit := checkForNewRides env this.

End Provider.

End Tracked.

(** ** Completion of a scheduled booking
    ([src/components/TripCompletionModal.tsx], [handleCompleteTrip]) *)

Module Scheduled.

(** A row of [rental_fares]: the columns the rental branch reads. *)
Record RentalFares := {
  hourly_rate : option float;
  driver_allowance_per_day : option float;
  overtime_rate : option float;
  km_limit_per_hour : option float;
  extra_km_rate : option float
}.

(** The [fareBreakdown] object of the rental branch. *)
Record RentalFare := {
  base_fare : float;
  fb_hourly_rate : float;
  rental_hours : float;
  hourly_fare : float;
  overtime_hours : float;
  overtime_fare : float;
  included_km : float;
  extra_km : float;
  extra_km_fare : float;
  driver_allowance : float;
  total_fare : float
}.

(** The rental branch of "Calculate fare based on booking type", for
    the measured duration (minutes) and the pickup-to-destination
    distance (km). *)
Definition rental_fare (currentBooking : ScheduledBooking) (fareMatrix : RentalFares)
    (actualDuration : Z) (tripDistance : float) : RentalFare :=
  let rentalHours := JS.num_or (sb_rental_hours currentBooking) 4 in
  let hourlyRate := JS.num_or (hourly_rate fareMatrix) 150 in
  let hourlyFare := (rentalHours * hourlyRate)%float in
  let driverAllowance := JS.num_or (driver_allowance_per_day fareMatrix) 0 in
  let actualHours := JS.ceil (JS.value (JS.of_int actualDuration / 60)%float) in
  let overtimeHours := JS.max 0 (JS.of_int actualHours - rentalHours)%float in
  let overtimeFare :=
    (overtimeHours * JS.num_or (overtime_rate fareMatrix) (hourlyRate * 1.2))%float in
  let includedKm := (rentalHours * JS.num_or (km_limit_per_hour fareMatrix) 10)%float in
  let extraKm := JS.max 0 (tripDistance - includedKm)%float in
  let extraKmFare := (extraKm * JS.num_or (extra_km_rate fareMatrix) 8)%float in
  let subtotal := (hourlyFare + overtimeFare + extraKmFare + driverAllowance)%float in
  let totalFare := subtotal in
  {| base_fare := 0;
     fb_hourly_rate := hourlyRate;
     rental_hours := rentalHours;
     hourly_fare := hourlyFare;
     overtime_hours := overtimeHours;
     overtime_fare := overtimeFare;
     included_km := includedKm;
     extra_km := extraKm;
     extra_km_fare := extraKmFare;
     driver_allowance := driverAllowance;
     total_fare := totalFare |}.

End Scheduled.

(** ** The fare policies in the words of the specification (section 4.2) *)

Module Policy.



(** Rental: [overtimeHours = max(0, ceil(actualMinutes/60) - bookedHours)],
    [extraKm = max(0, actualDistance - bookedHours*kmLimitPerHour)],
    [total = base + hours*hourlyRate + overtimeHours*overtimeRate
             + extraKm*extraKmRate + driverAllowance]. *)
Definition overtime_hours (actualMinutes : Z) (bookedHours : float) : float :=
  JS.max 0 (JS.of_int (JS.ceil (JS.value (JS.of_int actualMinutes / 60)%float))
            - bookedHours)%float.

Definition extra_km (actualDistance bookedHours kmLimitPerHour : float) : float :=
  JS.max 0 (actualDistance - bookedHours * kmLimitPerHour)%float.


End Policy.

(** ** Sample data *)

Module Sample.

Definition env : Env :=
  {| EXPO_PUBLIC_SUPABASE_URL := Some "https://a1taxi.supabase.co";
     EXPO_PUBLIC_SUPABASE_ANON_KEY := Some "anon-key" |}.

Definition driver : Driver :=
  {| auth_id := Some "d1";
     auth_user_id := Some "u1";
     auth_status := online;
     auth_is_verified := true;
     auth_user := Some {| full_name := Some "Asha"; phone_number := Some "9000000001" |};
     auth_vehicle := Some {| make := Some "Maruti"; model := Some "Dzire";
                             registration_number := Some "TN70A0001" |};
     auth_total_rides := Some 3 |}.

Definition manager : Tracked.Manager :=
  {| Tracked.authDriver := Some driver;
     Tracked.authLoading := false;
     Tracked.onRideUpdate := true;
     Tracked.onCurrentRideUpdate := true;
     Tracked.onAssignedScheduledBookingUpdate := true |}.

Definition location : Coords :=
  {| latitude := 12.75; longitude := 77.8125;
     heading := None; speed := None; accuracy := Some 5%float |}.

(** Ride [r1]: requested, no driver yet. *)
Definition ride : Ride :=
  {| ride_id := "r1"; driver_id := None; status := requested;
     booking_type := regular; vehicle_type := "sedan";
     pickup_otp := None; drop_otp := None;
     fare_amount := None; distance_km := None; duration_minutes := None;
     payment_status := None; rental_hours := None;
     cancellation_reason := None; cancelled_by := None;
     pickup_address := "Bus stand"; destination_address := "Railway station";
     created_at := 1699999000000; updated_at := 1699999000000 |}.

(** The fare rule of the specification's example. *)
Definition rule : FareMatrix :=
  {| fm_booking_type := regular; fm_vehicle_type := "sedan"; is_active := true;
     base_fare := 50; per_km_rate := 10; per_minute_rate := Some 0%float;
     platform_fee_percent := 0; minimum_fare := 100; hourly_rate := None |}.

(** A rental rule of the rides path: 150 an hour, no base fare, no fee. *)
Definition rental_rule : FareMatrix :=
  {| fm_booking_type := rental; fm_vehicle_type := "sedan"; is_active := true;
     base_fare := 0; per_km_rate := 10; per_minute_rate := None;
     platform_fee_percent := 0; minimum_fare := 100; hourly_rate := Some 150%float |}.

Definition request : Notification :=
  {| n_user_id := "u1"; n_type := ride_request; n_status := unread;
     n_data := Some {| data_ride_id := Some "r1"; data_rideId := None |};
     n_created_at := 1699999000000 |}.

Definition store : Store :=
  {| rides := {[ "r1" := ride ]};
     drivers := {[ "d1" := {| drv_user_id := Some "u1"; drv_vehicle_id := None;
                              drv_status := online; drv_total_rides := Some 3 |} ]};
     users := ∅;
     vehicles := ∅;
     notifications := [request];
     fare_matrix := [rule; rental_rule];
     live_locations := ∅;
     scheduled_bookings := [] |}.

Definition local : Local :=
  {| currentRide := None; pendingRides := []; scheduledBookings := [];
     assignedScheduledBooking := None; loading := false; error := None;
     lastNotificationCheck := 1699999500000; tripStartTime := None; tripStartLocation := None;
     totalDistanceTraveled := 0; lastKnownLocation := None; authStatus := None |}.

(** The store at rest: every call goes through. *)
Definition state : State :=
  {| db := store; plan := []; now := 1700000000000; ui := local |}.

(** The same with ride [r1] replaced by [r]. *)
Definition with_ride (r : Ride) (s : State) : State :=
  set_db (set_rides (<["r1" := r]> (rides (db s))) (db s)) s.

(** The sample driver while on a ride, and its manager. *)
Definition busy_driver : Driver :=
  {| auth_id := auth_id driver; auth_user_id := auth_user_id driver;
     auth_status := busy; auth_is_verified := auth_is_verified driver;
     auth_user := auth_user driver; auth_vehicle := auth_vehicle driver;
     auth_total_rides := auth_total_rides driver |}.

Definition busy_manager : Tracked.Manager :=
  {| Tracked.authDriver := Some busy_driver;
     Tracked.authLoading := false;
     Tracked.onRideUpdate := true;
     Tracked.onCurrentRideUpdate := true;
     Tracked.onAssignedScheduledBookingUpdate := true |}.

(** The life of ride [r1] under the extended provider: accepted by the
    sample driver, arrival marked, pickup code 4821 generated and
    verified, then thirty minutes and 12.5 km later the drop code 7314
    generated. *)
Definition accepted_state : State :=
  after (Tracked.acceptRide (Some driver) (Some location) "r1") state.

Definition arrived_state : State :=
  after (Tracked.markDriverArrived "r1") accepted_state.

Definition awaiting_state : State :=
  after (Tracked.generatePickupOTP (3821 # 9000) "r1") arrived_state.

Definition started_state : State :=
  after (Tracked.verifyPickupOTP (Some location) "r1" "4821") awaiting_state.

Definition trip_state : State :=
  after (Tracked.generateDropOTP (6314 # 9000) "r1")
    (set_now (now started_state + 30 * 60 * 1000)
       (set_ui (set_totalDistanceTraveled 12.5 (ui started_state)) started_state)).

(** Another life: the pickup code generated right after acceptance,
    arrival never marked. *)
Definition early_code_state : State :=
  after (Tracked.generatePickupOTP (3821 # 9000) "r1") accepted_state.

(** The matching process offers a ride again: a new unread ride request
    for the sample driver, one second after the clock of [s]. *)
Definition offered_again (rideId : string) (s : State) : State :=
  set_now (now s + 1000)
    (set_db (set_notifications
               (notifications (db s)
                ++ [{| n_user_id := "u1"; n_type := ride_request; n_status := unread;
                       n_data := Some {| data_ride_id := Some rideId;
                                         data_rideId := None |};
                       n_created_at := now s + 1000 |}])
               (db s)) s).

(** The sample driver sees the offer of [r1], declines it, and the ride
    is offered again. *)
Definition offered_state : State :=
  after (Tracked.checkForNewRides env manager) state.

Definition declined_state : State :=
  after (Tracked.declineRide (Some driver) "r1") offered_state.

Definition reoffered_state : State := offered_again "r1" declined_state.















End Sample.

(** * Vocabulary of the properties *)

(** [m] always returns a value: whatever the state and the failure
    plan, no error leaves [m]. *)
Definition never_throws {A} (m : M A) : Prop :=
  ∀ s, ∃ a s', m s = (Returned a, s').

(** [m] leaves the projection [f] of the state as it found it. *)
Definition preserves {A X} (f : State → X) (m : M A) : Prop :=
  ∀ s, f (m s).2 = f s.

(** The [rides] table and the clock. *)
Definition rides_and_clock (s : State) : gmap string Ride * Z := (rides (db s), now s).

(** The guard of the conditional update of [acceptRide], read on the
    store of [s]: the row exists, is requested and has no driver. *)
Definition open_ride (s : State) (rideId : string) : Prop :=
  ∃ r, rides (db s) !! rideId = Some r ∧ status r = requested ∧ driver_id r = None.

(** The row after the accepting write of driver [did] at time [t]. *)
Definition assigned_to (did : string) (t : Z) (r : Ride) : Ride :=
  set_updated_at t (set_status accepted (set_driver_id (Some did) r)).

(** What [acceptRide] may have done when it ends in [s'] with outcome
    [o]: the table is as before, or the open row was given to the
    driver; and when the row is not open, nothing was written and the
    call returned [false]. *)
Definition accept_effect (driver : option Driver) (rideId : string)
    (s : State) (o : Outcome bool) (s' : State) : Prop :=
  (rides (db s') = rides (db s)
   ∨ ∃ did r, driver_id_of driver = Some did
       ∧ rides (db s) !! rideId = Some r
       ∧ status r = requested ∧ driver_id r = None
       ∧ rides (db s') = <[rideId := assigned_to did (now s) r]> (rides (db s)))
  ∧ (¬ open_ride s rideId → rides (db s') = rides (db s) ∧ o = Returned false).

(** The row after a successful pickup verification at time [t]. *)
Definition verified (t : Z) (r : Ride) : Ride :=
  set_updated_at t (set_pickup_otp None (set_status in_progress r)).

(** What [verifyPickupOTP] may have done: nothing, reporting failure, or
    the row held the supplied code and is now [verified], reporting
    success; and a row holding the supplied code is moved whenever no
    store failure is planned. *)
Definition verify_effect (rideId otp : string) (s : State) (o : Outcome bool) (s' : State)
    : Prop :=
  ((rides (db s') = rides (db s) ∧ o = Returned false)
   ∨ ∃ r, rides (db s) !! rideId = Some r ∧ pickup_otp r = Some otp
       ∧ rides (db s') = <[rideId := verified (now s) r]> (rides (db s))
       ∧ o = Returned true)
  ∧ (∀ r, rides (db s) !! rideId = Some r → pickup_otp r = Some otp → plan s = [] →
       o = Returned true ∧ rides (db s') !! rideId = Some (verified (now s) r)).



(** The row after a code has been generated for a checkpoint at time [t]. *)
Definition with_pickup_otp (otp : string) (t : Z) (r : Ride) : Ride :=
  set_updated_at t (set_pickup_otp (Some otp) r).








(** One of the first [k] store calls under the plan [p] fails (comes back
    with an error result or throws), those before it going through. *)
Fixpoint fails_within (k : nat) (p : list Fault) : Prop :=
  match k, p with
  | S k, succeeds :: p => fails_within k p
  | S _, _ :: _ => True
  | _, _ => False
  end.

(** [m], run from [s], returns [a] and leaves the tables of the store as
    they were. *)
Definition returns_unwritten {A} (m : M A) (s : State) (a : A) : Prop :=
  ∃ s', m s = (Returned a, s') ∧ db s' = db s.

(** Between [s] and [s'] the row of [rideId], requested and unassigned,
    was given to the driver. *)
Definition accepted_by (driver : option Driver) (rideId : string) (s s' : State)
    : Prop :=
  ∃ did r, driver_id_of driver = Some did
    ∧ rides (db s) !! rideId = Some r
    ∧ status r = requested ∧ driver_id r = None
    ∧ rides (db s') = <[rideId := assigned_to did (now s) r]> (rides (db s)).

(** The next store call throws. *)
Definition throws_next (p : list Fault) : Prop :=
  match p with
  | throws _ :: _ => True
  | _ => False
  end.

(** None of the first [k] store calls throws. *)
Definition none_throws (k : nat) (p : list Fault) : Prop := ∀ e, throws e ∉ take k p.

(** [m] gives up with [failure] when one of its first [k] store calls
    fails: it returns [failure] and leaves the tables as they were. *)
Definition gives_up_within {A} (k : nat) (failure : A) (m : M A) : Prop :=
  ∀ s, fails_within k (plan s) → returns_unwritten m s failure.

(** [m] gives up with [failure] when its first store call throws. *)
Definition gives_up_on_throw {A} (failure : A) (m : M A) : Prop :=
  ∀ s, throws_next (plan s) → returns_unwritten m s failure.

(** [m] overlooks an error of its store call number [k + 1]: when the
    [k] calls before it go through, [m] returns the same value whether
    that call comes back with an error or goes through. *)
Definition overlooks_error_after {A} (k : nat) (m : M A) : Prop :=
  ∀ s e p,
    plan s = replicate k succeeds ++ fails e :: p →
    (m s).1 = (m (set_plan (replicate k succeeds ++ succeeds :: p) s)).1.

(** What a reconciliation does to the local state: each of these fields
    is overwritten with a value or left alone. *)
Record Patch := {
  p_currentRide : option (option Ride);
  p_pendingRides : option (list Ride);
  p_scheduledBookings : option (list ScheduledBooking);
  p_assignedScheduledBooking : option (option ScheduledBooking);
  p_error : option (option string)
}.

Definition no_patch : Patch :=
  {| p_currentRide := None; p_pendingRides := None; p_scheduledBookings := None;
     p_assignedScheduledBooking := None; p_error := None |}.

Definition overwrite {A} (f : A → Local → Local) (o : option A) (l : Local) : Local :=
  match o with
  | Some v => f v l
  | None => l
  end.

Definition apply_patch (p : Patch) (l : Local) : Local :=
  overwrite set_error (p_error p)
    (overwrite set_assignedScheduledBooking (p_assignedScheduledBooking p)
       (overwrite set_scheduledBookings (p_scheduledBookings p)
          (overwrite set_pendingRides (p_pendingRides p)
             (overwrite set_currentRide (p_currentRide p) l)))).

(** The later write of a field wins. *)
Definition later {A} (first second : option A) : option A :=
  match second with
  | Some v => Some v
  | None => first
  end.

Definition patch_then (p q : Patch) : Patch :=
  {| p_currentRide := later (p_currentRide p) (p_currentRide q);
     p_pendingRides := later (p_pendingRides p) (p_pendingRides q);
     p_scheduledBookings := later (p_scheduledBookings p) (p_scheduledBookings q);
     p_assignedScheduledBooking :=
       later (p_assignedScheduledBooking p) (p_assignedScheduledBooking q);
     p_error := later (p_error p) (p_error q) |}.

(** [m] settles: when no store failure is planned, it returns a value
    and overwrites local fields with values, both determined by the store
    and the clock alone, and changes nothing else. *)
Definition settles {A} (m : M A) : Prop :=
  ∀ (d : Store) (t : Z), ∃ (p : Patch) (a : A),
    ∀ s, db s = d → now s = t → plan s = [] →
         m s = (Returned a, set_ui (apply_patch p (ui s)) s).

(** Every row of [rides] carries its key in its [id] column. *)
Definition well_keyed (d : Store) : Prop :=
  ∀ k r, rides d !! k = Some r → ride_id r = k.

(** The store holds a decline marker of user [uid] for ride [rideId]. *)
Definition declined_by (uid rideId : string) (d : Store) : Prop :=
  ∃ n dat, n ∈ notifications d ∧ n_user_id n = uid ∧ n_type n = ride_declined
    ∧ n_data n = Some dat ∧ data_ride_id dat = Some rideId.

(** The store holds an unread ride request to user [uid] for ride [rideId]. *)
Definition requested_of (uid rideId : string) (d : Store) : Prop :=
  ∃ n dat, n ∈ notifications d ∧ n_user_id n = uid ∧ n_type n = ride_request
    ∧ n_status n = unread ∧ n_data n = Some dat ∧ data_ride_id dat = Some rideId.

(** The row after [markDriverArrived] or [startRide] at time [t]. *)
Definition moved_to (st : RideStatus) (t : Z) (r : Ride) : Ride :=
  set_updated_at t (set_status st r).

(** The trip the provider tracks locally. *)
Definition tracking (l : Local)
    : option Ride * option Z * option (float * float) * float * option (float * float) :=
  (currentRide l, tripStartTime l, tripStartLocation l, totalDistanceTraveled l,
   lastKnownLocation l).

(** The distance and the duration [completeRide] reports for the trip
    tracked in [l] at time [t]: 5.2 km when no distance was tracked, 25
    minutes when the start was not recorded. *)
Definition tracked_distance (l : Local) : float :=
  if (0 <? totalDistanceTraveled l)%float then totalDistanceTraveled l else 5.2%float.

Definition tracked_minutes (l : Local) (t : Z) : Z :=
  match tripStartTime l with
  | Some startTime =>
      JS.round (JS.value (JS.of_int (t - startTime) / JS.of_int (1000 * 60))%float)
  | None => 25
  end.

(** * Properties *)

(** ** Reasoning about computations *)

Section Computations.

Context {A B : Type}.

Lemma never_throws_ret (a : A) : never_throws (mret a).
Proof. intros s. by exists a, s. Qed.

Lemma never_throws_bind (m : M A) (k : A → M B) :
  never_throws m → (∀ a, never_throws (k a)) → never_throws (m ≫= k).
Proof.
  intros Hm Hk s. destruct (Hm s) as (a & s1 & E).
  destruct (Hk a s1) as (b & s2 & E2). exists b, s2.
  unfold mbind, M_bind, bind. by rewrite E.
Qed.

(** A handler that returns makes the whole [try]/[catch] return. *)
Lemma never_throws_try_catch (m : M A) (h : JS.Error → M A) :
  (∀ e, never_throws (h e)) → never_throws (try_catch m h).
Proof.
  intros Hh s. unfold try_catch. destruct (m s) as [[a|e] s1]; [by exists a, s1|].
  apply Hh.
Qed.

Lemma never_throws_finally (m : M A) (f : M unit) :
  never_throws m → never_throws f → never_throws (finally m f).
Proof.
  intros Hm Hf s. destruct (Hm s) as (a & s1 & E).
  destruct (Hf s1) as ([] & s2 & E2). exists a, s2.
  unfold finally. by rewrite E, E2.
Qed.

Lemma never_throws_modify_ui (g : Local → Local) : never_throws (modify_ui g).
Proof. intros s. by eexists _, _. Qed.

Context {X : Type} (f : State → X).

Lemma preserves_ret (a : A) : preserves f (mret a).
Proof. by intros s. Qed.

Lemma preserves_throw (e : JS.Error) : preserves f (throw (A:=A) e).
Proof. by intros s. Qed.

Lemma preserves_gets (g : State → A) : preserves f (gets g).
Proof. by intros s. Qed.

Lemma preserves_bind (m : M A) (k : A → M B) :
  preserves f m → (∀ a, preserves f (k a)) → preserves f (m ≫= k).
Proof.
  intros Hm Hk s. unfold mbind, M_bind, bind. specialize (Hm s).
  destruct (m s) as [[a|e] s1]; simpl in *; [|done].
  by rewrite Hk.
Qed.

Lemma preserves_try_catch (m : M A) (h : JS.Error → M A) :
  preserves f m → (∀ e, preserves f (h e)) → preserves f (try_catch m h).
Proof.
  intros Hm Hh s. unfold try_catch. specialize (Hm s).
  destruct (m s) as [[a|e] s1]; simpl in *; [done|].
  by rewrite Hh.
Qed.

Lemma preserves_finally (m : M A) (g : M unit) :
  preserves f m → preserves f g → preserves f (finally m g).
Proof.
  intros Hm Hg s. unfold finally. specialize (Hm s).
  destruct (m s) as [o s1]; simpl in *. specialize (Hg s1).
  destruct (g s1) as [[[]|e] s2]; simpl in *; congruence.
Qed.

End Computations.

Lemma preserves_when {X} (f : State → X) (c : bool) (m : M unit) :
  preserves f m → preserves f (when c m).
Proof. intros Hm. destruct c; [done|]. by intros s. Qed.

(** The setters of the local state touch neither the store nor the clock. *)
Lemma modify_ui_keeps_rides (g : Local → Local) :
  preserves rides_and_clock (modify_ui g).
Proof. by intros s. Qed.

(** A store call whose query leaves [rides] alone leaves it alone under
    every plan. *)
Lemma call_keeps_rides {A} (q : Pg.Query A) :
  (∀ d, rides (q d).2 = rides d) → preserves rides_and_clock (Pg.call q).
Proof.
  intros Hq s. unfold Pg.call, rides_and_clock.
  destruct (next_fault s) as [|e|e]; simpl; try done.
  specialize (Hq (db s)). destruct (q (db s)) as [r d]; simpl in *.
  by rewrite Hq.
Qed.

(** Steps of a proof that a computation always returns. *)
Ltac returns_step :=
  match goal with
  | |- never_throws (match ?x with _ => _ end) => destruct x
  | |- never_throws (finally _ _) => apply never_throws_finally
  | |- never_throws (try_catch _ _) => apply never_throws_try_catch; intros ?
  | |- never_throws (_ ≫= _) => apply never_throws_bind; [|intros ?]
  | |- never_throws (mret _) => apply never_throws_ret
  | |- never_throws (setError _) => apply never_throws_modify_ui
  | |- never_throws (setLoading _) => apply never_throws_modify_ui
  end.

Ltac returns := repeat returns_step.

(** ** No error crosses the controller boundary *)

Section Boundary.

Variables (env : Env) (this : Tracked.Manager) (driver : option Driver)
  (currentLocation : option Coords).

Lemma basic_acceptRide_returns rideId : never_throws (Basic.acceptRide driver rideId).
Proof. unfold Basic.acceptRide. returns. Qed.

Lemma basic_declineRide_returns rideId : never_throws (Basic.declineRide driver rideId).
Proof. unfold Basic.declineRide. returns. Qed.

Lemma basic_update_status_returns rideId st msg :
  never_throws (Basic.update_status rideId st msg).
Proof. unfold Basic.update_status. returns. Qed.

Lemma basic_generatePickupOTP_returns r rideId :
  never_throws (Basic.generatePickupOTP r rideId).
Proof. unfold Basic.generatePickupOTP. returns. Qed.

Lemma basic_verifyPickupOTP_returns rideId otp :
  never_throws (Basic.verifyPickupOTP rideId otp).
Proof. unfold Basic.verifyPickupOTP. returns. Qed.

Lemma basic_generateDropOTP_returns r rideId :
  never_throws (Basic.generateDropOTP r rideId).
Proof. unfold Basic.generateDropOTP. returns. Qed.

Lemma basic_completeRide_returns rideId :
  never_throws (Basic.completeRide driver rideId).
Proof. unfold Basic.completeRide. returns. Qed.

Lemma basic_cancelRide_returns rideId reason :
  never_throws (Basic.cancelRide driver rideId reason).
Proof. unfold Basic.cancelRide. returns. Qed.

Lemma tracked_acceptRide_returns rideId :
  never_throws (Tracked.acceptRide driver currentLocation rideId).
Proof. unfold Tracked.acceptRide. returns. Qed.

Lemma tracked_declineRide_returns rideId :
  never_throws (Tracked.declineRide driver rideId).
Proof. unfold Tracked.declineRide. returns. Qed.

Lemma tracked_update_status_returns rideId st msg :
  never_throws (Tracked.update_status rideId st msg).
Proof. unfold Tracked.update_status. returns. Qed.

Lemma tracked_generatePickupOTP_returns r rideId :
  never_throws (Tracked.generatePickupOTP r rideId).
Proof. unfold Tracked.generatePickupOTP. returns. Qed.

Lemma tracked_verifyPickupOTP_returns rideId otp :
  never_throws (Tracked.verifyPickupOTP currentLocation rideId otp).
Proof. unfold Tracked.verifyPickupOTP. returns. Qed.

Lemma tracked_generateDropOTP_returns r rideId :
  never_throws (Tracked.generateDropOTP r rideId).
Proof. unfold Tracked.generateDropOTP. returns. Qed.

Lemma tracked_completeRide_returns rideId :
  never_throws (Tracked.completeRide driver rideId).
Proof. unfold Tracked.completeRide. returns. Qed.

Lemma tracked_cancelRide_returns rideId reason :
  never_throws (Tracked.cancelRide driver rideId reason).
Proof. unfold Tracked.cancelRide. returns. Qed.

End Boundary.

(** The body of a controller operation can throw: the boundary is kept
    by the handlers, not by the store. *)
Lemma call_throws {A} (q : Pg.Query A) (e : JS.Error) (p : list Fault) (s : State) :
  plan s = throws e :: p → Pg.call q s = (Thrown e, set_plan p s).
Proof. intros E. unfold Pg.call, next_fault, advance. by rewrite E. Qed.

(** ** Acceptance is a conditional transition *)

Lemma still_open_spec (r : Ride) :
  still_open r = true ↔ status r = requested ∧ driver_id r = None.
Proof.
  unfold still_open. rewrite andb_true_iff, !bool_decide_eq_true. tauto.
Qed.

Section Inversion.
Context {A B : Type}.

Lemma bind_inv (m : M A) (k : A → M B) s o s' :
  (m ≫= k) s = (o, s') →
  ∃ o1 s1, m s = (o1, s1)
    ∧ match o1 with
      | Returned a => k a s1 = (o, s')
      | Thrown e => o = Thrown e ∧ s' = s1
      end.
Proof.
  unfold mbind, M_bind, bind. destruct (m s) as [[a|e] s1]; intros H.
  - by exists (Returned a), s1.
  - injection H as <- <-. by exists (Thrown e), s1.
Qed.

Lemma try_catch_inv (m : M A) (h : JS.Error → M A) s o s' :
  try_catch m h s = (o, s') →
  ∃ o1 s1, m s = (o1, s1)
    ∧ match o1 with
      | Returned a => o = Returned a ∧ s' = s1
      | Thrown e => h e s1 = (o, s')
      end.
Proof.
  unfold try_catch. destruct (m s) as [[a|e] s1]; intros H.
  - injection H as <- <-. by exists (Returned a), s1.
  - by exists (Thrown e), s1.
Qed.

Lemma finally_inv (m : M A) (f : M unit) s o s' :
  finally m f s = (o, s') →
  ∃ o1 s1 o2, m s = (o1, s1) ∧ f s1 = (o2, s')
    ∧ match o2 with
      | Returned _ => o = o1
      | Thrown e => o = Thrown e
      end.
Proof.
  unfold finally. destruct (m s) as [o1 s1]. destruct (f s1) as [[[]|e] s2] eqn:E;
    intros [= <- <-]; by eexists _, _, _.
Qed.

Lemma preserves_run {X} (f : State → X) (m : M A) s o s' :
  preserves f m → m s = (o, s') → f s' = f s.
Proof. intros Hm E. specialize (Hm s). by rewrite E in Hm. Qed.

End Inversion.

Lemma call_inv {A} (q : Pg.Query A) s o s' :
  Pg.call q s = (o, s') →
  (o = Returned (q (db s)).1 ∧ s' = set_db (q (db s)).2 (advance s))
  ∨ (∃ e, o = Returned (Pg.failed e) ∧ s' = advance s)
  ∨ (∃ e, o = Thrown e ∧ s' = advance s).
Proof.
  unfold Pg.call. destruct (next_fault s) as [|e|e].
  - destruct (q (db s)) as [r d]. intros [= <- <-]. by left.
  - intros [= <- <-]. right; left. by exists e.
  - intros [= <- <-]. right; right. by exists e.
Qed.

Ltac run :=
  unfold finally, try_catch, when, setCurrentRide, setPendingRides,
    updatePendingRides, setLoading, setError, setTripStartTime,
    setTripStartLocation, setTotalDistanceTraveled, setLastKnownLocation,
    updateDriverStatusFromRide, modify_ui, gets, throw;
  unfold mbind, mret, M_bind, M_ret, bind, ret; simpl.

(** A query that does not write [rides]. *)
Ltac reads_rides :=
  intros ?d;
  unfold Pg.select_ride_single, Pg.select_rides, Pg.select_rides_newest,
    Pg.select_ride_newest_maybe, Pg.select_driver_single, Pg.update_driver,
    Pg.select_user_single, Pg.select_vehicle_single, Pg.select_fare_matrix_single,
    Pg.select_notifications, Pg.select_notifications_latest,
    Pg.update_notifications, Pg.insert_notification, Pg.upsert_live_location,
    Pg.insert_live_location, Pg.update_live_location, Pg.select_scheduled,
    Pg.select_scheduled_maybe;
  repeat case_match; done.

(** Steps of a proof that a computation leaves [rides] and the clock alone. *)
Ltac frame_step :=
  match goal with
  | |- preserves _ (match ?x with _ => _ end) => destruct x
  | |- preserves _ (_ ≫= _) => apply preserves_bind; [|intros ?]
  | |- preserves _ (try_catch _ _) => apply preserves_try_catch; [|intros ?]
  | |- preserves _ (finally _ _) => apply preserves_finally
  | |- preserves _ (mret _) => apply preserves_ret
  | |- preserves _ (throw _) => apply preserves_throw
  | |- preserves _ (gets _) => apply preserves_gets
  | |- preserves _ (when _ _) => apply preserves_when
  | |- preserves rides_and_clock (Pg.call _) => apply call_keeps_rides; reads_rides
  | |- preserves rides_and_clock _ => apply modify_ui_keeps_rides
  end.

Ltac frame := repeat frame_step.

Section Accept.

Variables (driver : option Driver) (currentLocation : option Coords).

Lemma basic_acceptRide_effect rideId s o s' :
  Basic.acceptRide driver rideId s = (o, s') → accept_effect driver rideId s o s'.
Proof.
  unfold Basic.acceptRide, accept_effect, open_ride.
  destruct (driver_id_of driver) as [did|] eqn:Hd.
  2:{ intros [= <- <-]. split; [by left|done]. }
  run. unfold Pg.call at 1.
  destruct (next_fault _) as [|e|e]; simpl.
  2,3: intros [= <- <-]; simpl; split; [by left|done].
  unfold Pg.update_ride_single.
  destruct (rides (db s) !! rideId) as [r|] eqn:Hr; simpl.
  2:{ intros [= <- <-]; simpl. split; [by left|done]. }
  destruct (still_open r) eqn:Ho; simpl.
  2:{ intros [= <- <-]; simpl. split; [by left|done]. }
  apply still_open_spec in Ho as [Hs Hdr].
  intros H. split.
  - right. exists did, r. repeat split; try done.
    revert H. unfold Pg.call. destruct (next_fault _) as [|e|e]; simpl.
    + unfold Pg.update_driver; simpl. destruct (drivers (db s) !! did); simpl;
        by intros [= <- <-].
    + by intros [= <- <-].
    + by intros [= <- <-].
  - intros Hn. exfalso. apply Hn. eauto.
Qed.
Lemma debugQueries_keeps_rides did : preserves rides_and_clock (Tracked.debugQueries did).
Proof. unfold Tracked.debugQueries. frame. Qed.

Lemma startLocationSharing_keeps_rides :
  preserves rides_and_clock (Tracked.startLocationSharing driver currentLocation).
Proof. unfold Tracked.startLocationSharing. frame. Qed.

Lemma updateDriverStatus_keeps_rides st :
  preserves rides_and_clock (Tracked.updateDriverStatus driver st).
Proof. unfold Tracked.updateDriverStatus. frame. Qed.

Lemma tracked_acceptRide_effect rideId s o s' :
  Tracked.acceptRide driver currentLocation rideId s = (o, s') →
  accept_effect driver rideId s o s'.
Proof.
  unfold Tracked.acceptRide, accept_effect, open_ride.
  destruct driver as [d|] eqn:Hdr0; [|intros [= <- <-]; split; [by left|done]].
  rewrite <- Hdr0 in *.
  destruct (driver_id_of driver) as [did|] eqn:Hd;
    [|intros [= <- <-]; split; [by left|done]].
  destruct (driver_user_id_of driver) as [uid|] eqn:Hu;
    [|intros [= <- <-]; split; [by left|done]].
  intros H. apply try_catch_inv in H as (o1 & s1 & Hbody & Hcatch).
  assert (Hgoal : (rides (db s1) = rides (db s)
     ∨ ∃ did0 r, Some did = Some did0 ∧ rides (db s) !! rideId = Some r
         ∧ status r = requested ∧ driver_id r = None
         ∧ rides (db s1) = <[rideId := assigned_to did0 (now s) r]> (rides (db s)))
    ∧ (¬ (∃ r, rides (db s) !! rideId = Some r ∧ status r = requested
            ∧ driver_id r = None)
       → rides (db s1) = rides (db s)
         ∧ (o1 = Returned false ∨ ∃ e, o1 = Thrown e))).
  2:{ destruct Hgoal as [Ha Hb]. destruct o1 as [b|e].
      - destruct Hcatch as [-> ->]. split; [done|]. intros Hn.
        destruct (Hb Hn) as [? [?|[? ?]]]; by simplify_eq.
      - injection Hcatch as <- <-. split; [done|]. intros Hn.
        destruct (Hb Hn) as [? _]. done. }
  clear Hcatch o s'.
  apply bind_inv in Hbody as (oa & sa & Ha & Hbody).
  pose proof (preserves_run _ _ _ _ _ (debugQueries_keeps_rides did) Ha) as Fa.
  destruct oa as [[]|e]; [|destruct Hbody as [-> ->]; injection Fa as -> _;
                            split; [by left|eauto]].
  destruct (negb (Tracked.v_success _));
    [injection Hbody as <- <-; injection Fa as -> _; split; [by left|eauto]|].
  destruct (negb (auth_is_verified d));
    [injection Hbody as <- <-; injection Fa as -> _; split; [by left|eauto]|].
  destruct (_ || _);
    [injection Hbody as <- <-; injection Fa as -> _; split; [by left|eauto]|].
  apply bind_inv in Hbody as (ob & sb & Hb & Hbody).
  pose proof (preserves_run _ _ _ _ _ startLocationSharing_keeps_rides Hb) as Fb.
  rewrite Fa in Fb. clear Fa Ha Hb sa.
  destruct ob as [shared|e]; [|destruct Hbody as [-> ->]; injection Fb as -> _;
                                split; [by left|eauto]].
  destruct (negb shared);
    [injection Hbody as <- <-; injection Fb as -> _; split; [by left|eauto]|].
  injection Fb as Fr Fn.
  revert Hbody. run. unfold Pg.call at 1.
  destruct (next_fault sb) as [|e|e]; simpl.
  2:{ destruct (bool_decide _); intros [= <- <-]; simpl; rewrite Fr;
      (split; [by left|eauto]). }
  2:{ intros [= <- <-]; simpl; rewrite Fr; split; [by left|eauto]. }
  unfold Pg.update_ride_single. rewrite Fr, Fn.
  destruct (rides (db s) !! rideId) as [r|] eqn:Hr; simpl.
  2:{ intros [= <- <-]; simpl. rewrite Fr. split; [by left|eauto]. }
  destruct (still_open r) eqn:Ho; simpl.
  2:{ intros [= <- <-]; simpl. rewrite Fr. split; [by left|eauto]. }
  apply still_open_spec in Ho as [Hs Hdr].
  match goal with
  | |- context [Tracked.updateDriverStatus driver busy ?s0] =>
      destruct (Tracked.updateDriverStatus driver busy s0) as [ou su] eqn:Eu;
      pose proof (preserves_run _ _ _ _ _ (updateDriverStatus_keeps_rides busy) Eu)
        as Fu
  end.
  injection Fu as Fu _. simpl in Fu.
  assert (rides (db su) = <[rideId:=assigned_to did (now s) r]> (rides (db s)))
    as Hsu by (rewrite Fu; reflexivity).
  intros H. split.
  - right. exists did, r. repeat split; try done.
    destruct ou as [[]|e]; injection H as <- <-; done.
  - intros Hn. exfalso. apply Hn. eauto.
Qed.
End Accept.

(** C1. [acceptRide] of either provider writes the ride row only through
    the conditional update: the [rides] table is left as it was, or the
    row was requested and unassigned at write time and now carries the
    driver and status [accepted]; and when the row is not requested and
    unassigned (the ride was taken), no row is written and the call
    returns [false], under every plan of store failures. *)
Theorem acceptRide_conditional_transition (driver : option Driver)
    (currentLocation : option Coords) (rideId : string) (s s' : State)
    (o : Outcome bool) :
  Basic.acceptRide driver rideId s = (o, s')
  ∨ Tracked.acceptRide driver currentLocation rideId s = (o, s') →
  (rides (db s') = rides (db s)
   ∨ ∃ did r, driver_id_of driver = Some did
       ∧ rides (db s) !! rideId = Some r
       ∧ status r = requested ∧ driver_id r = None
       ∧ rides (db s') = <[rideId := assigned_to did (now s) r]> (rides (db s)))
  ∧ (¬ open_ride s rideId → rides (db s') = rides (db s) ∧ o = Returned false).
Proof.
  intros [H|H].
  - by apply basic_acceptRide_effect.
  - by apply tracked_acceptRide_effect in H.
Qed.

(** The ride of the sample store once taken by another driver: the
    sample driver's [acceptRide] writes nothing and returns [false]. *)
Lemma acceptRide_conditional_transition_witness :
  let taken := Sample.with_ride
                 (set_status accepted (set_driver_id (Some "d2") Sample.ride))
                 Sample.state in
  let run := Tracked.acceptRide (Some Sample.driver) (Some Sample.location) "r1" taken in
  rides (db run.2) = rides (db taken) ∧ run.1 = Returned false.
Proof.
  intros taken run.
  refine (proj2 (acceptRide_conditional_transition (Some Sample.driver)
                   (Some Sample.location) "r1" taken run.2 run.1 _) _).
  - right. vm_compute. reflexivity.
  - intros (r & Hr & Hs & Hd). vm_compute in Hr. injection Hr as <-. discriminate.
Defined.

(** ** Pickup verification *)

(** Case analysis on the fault met by the first pending store call. *)
Ltac call_cases H :=
  unfold Pg.call at 1;
  match goal with
  | |- context [match next_fault ?s with _ => _ end] =>
      destruct (next_fault s) as [|?e|?e] eqn:H; simpl
  end.

Lemma basic_verifyPickupOTP_effect rideId otp s o s' :
  Basic.verifyPickupOTP rideId otp s = (o, s') → verify_effect rideId otp s o s'.
Proof.
  unfold Basic.verifyPickupOTP, verify_effect.
  run. call_cases Hf.
  2,3: intros [= <- <-]; simpl; split; [by left|];
       intros r _ _ Hp; unfold next_fault in *; simpl in *; rewrite Hp in Hf;
       simpl in *; congruence.
  unfold Pg.update_ride_single.
  destruct (rides (db s) !! rideId) as [r|] eqn:Hr; simpl.
  2:{ intros [= <- <-]; simpl. split; [by left|done]. }
  destruct (bool_decide (pickup_otp r = Some otp)) eqn:Ho; simpl.
  2:{ intros [= <- <-]; simpl. split; [by left|]. intros r' [= <-] Hm.
      apply bool_decide_eq_false in Ho. done. }
  apply bool_decide_eq_true in Ho.
  intros [= <- <-]; simpl. split.
  - right. by exists r.
  - intros r' [= <-] _ _. split; [done|]. by rewrite lookup_insert_eq.
Qed.

Lemma tracked_verifyPickupOTP_effect currentLocation rideId otp s o s' :
  Tracked.verifyPickupOTP currentLocation rideId otp s = (o, s') →
  verify_effect rideId otp s o s'.
Proof.
  unfold Tracked.verifyPickupOTP, verify_effect.
  run. call_cases Hf.
  2,3: intros [= <- <-]; simpl; split; [by left|];
       intros r _ _ Hp; unfold next_fault in *; simpl in *; rewrite Hp in Hf;
       simpl in *; congruence.
  unfold Pg.select_ride_single.
  destruct (rides (db s) !! rideId) as [r|] eqn:Hr; simpl.
  2:{ intros [= <- <-]; simpl. split; [by left|done]. }
  destruct (bool_decide (pickup_otp r ≠ Some otp)) eqn:Ho; simpl.
  { intros [= <- <-]; simpl. split; [by left|]. intros r' [= <-] Hm.
    apply bool_decide_eq_true in Ho. done. }
  apply bool_decide_eq_false in Ho. apply dec_stable in Ho.
  call_cases Hf2.
  2,3: intros [= <- <-]; simpl; split; [by left|];
       intros r' _ _ Hp; unfold next_fault in *; simpl in *; rewrite Hp in Hf2;
       simpl in *; congruence.
  unfold Pg.update_ride_single. simpl. rewrite Hr. simpl.
  intros [= <- <-]; simpl. split.
  - right. by exists r.
  - intros r' [= <-] _ _. split; [done|]. by rewrite lookup_insert_eq.
Qed.

(** C2 (as amended). [verifyPickupOTP] of either provider moves the ride
    to [in_progress] only when the supplied code equals the pickup code
    stored on the row, and then clears the stored code and reports
    success; with any other code, a cleared (null) stored code included,
    the [rides] table is unchanged and the call reports failure.  A
    matching code moves the ride whenever the store calls go through,
    whatever the status of the ride: no status is tested. *)
Theorem verifyPickupOTP_matches_stored_code (currentLocation : option Coords)
    (rideId otp : string) (s s' : State) (o : Outcome bool) :
  Basic.verifyPickupOTP rideId otp s = (o, s')
  ∨ Tracked.verifyPickupOTP currentLocation rideId otp s = (o, s') →
  ((rides (db s') = rides (db s) ∧ o = Returned false)
   ∨ ∃ r, rides (db s) !! rideId = Some r ∧ pickup_otp r = Some otp
       ∧ rides (db s') = <[rideId := verified (now s) r]> (rides (db s))
       ∧ o = Returned true)
  ∧ (∀ r, rides (db s) !! rideId = Some r → pickup_otp r = Some otp → plan s = [] →
       o = Returned true ∧ rides (db s') !! rideId = Some (verified (now s) r)).
Proof.
  intros [H|H].
  - by apply basic_verifyPickupOTP_effect.
  - by apply tracked_verifyPickupOTP_effect in H.
Qed.

(** A wrong code on a ride awaiting verification: nothing moves. *)
Lemma verifyPickupOTP_matches_stored_code_witness :
  let s := Sample.awaiting_state in
  let run := Basic.verifyPickupOTP "r1" "0000" s in
  (rides (db run.2) = rides (db s) ∧ run.1 = Returned false)
  ∨ ∃ r, rides (db s) !! "r1" = Some r ∧ pickup_otp r = Some "0000"
      ∧ rides (db run.2) = <["r1" := verified (now s) r]> (rides (db s))
      ∧ run.1 = Returned true.
Proof.
  intros s run.
  refine (proj1 (verifyPickupOTP_matches_stored_code None "r1" "0000" s run.2 run.1 _)).
  left. vm_compute. reflexivity.
Defined.

(** C2 as stated fails: the ride is [accepted], never marked arrived, and
    the matching code still moves it to [in_progress], in both providers. *)
Lemma verifyPickupOTP_ignores_status :
  status <$> rides (db Sample.early_code_state) !! "r1" = Some accepted
  ∧ pickup_otp <$> rides (db Sample.early_code_state) !! "r1" = Some (Some "4821")
  ∧ (Tracked.verifyPickupOTP (Some Sample.location) "r1" "4821" Sample.early_code_state).1
    = Returned true
  ∧ status <$> rides (db (after (Tracked.verifyPickupOTP (Some Sample.location)
                                   "r1" "4821") Sample.early_code_state)) !! "r1"
    = Some in_progress
  ∧ (Basic.verifyPickupOTP "r1" "4821" Sample.early_code_state).1 = Returned true
  ∧ status <$> rides (db (after (Basic.verifyPickupOTP "r1" "4821") Sample.early_code_state)) !! "r1"
    = Some in_progress.
Proof. vm_compute. repeat split. Qed.

(** ** One-time codes *)



Section Generate.

Variables (rideId : string) (random : Q) (s : State) (r : Ride).
Hypothesis Hrow : rides (db s) !! rideId = Some r.
Hypothesis Hcall : next_fault s = succeeds.

Lemma basic_generatePickupOTP_stores :
  Basic.generatePickupOTP random rideId s
  = (Returned (Some (otp_of_draw random)),
     set_db (set_rides (<[rideId := with_pickup_otp (otp_of_draw random) (now s) r]>
                          (rides (db s))) (db s)) (advance s)).
Proof.
  unfold Basic.generatePickupOTP. run. unfold Pg.call, Pg.update_ride.
  by rewrite Hcall, Hrow.
Qed.

Lemma tracked_generatePickupOTP_stores :
  Tracked.generatePickupOTP random rideId s
  = (Returned (Some (otp_of_draw random)),
     set_db (set_rides (<[rideId := with_pickup_otp (otp_of_draw random) (now s) r]>
                          (rides (db s))) (db s)) (advance s)).
Proof.
  unfold Tracked.generatePickupOTP. run. unfold Pg.call, Pg.update_ride.
  by rewrite Hcall, Hrow.
Qed.



End Generate.



(** ** Declining *)

(** C10. [declineRide] of the extended provider reports success when both
    of its store writes (the update that marks the ride-request
    notification cancelled and the insert of the decline marker) come back
    with an error result: it returns [true], exactly as when both writes
    go through, the store is unchanged (no marker is recorded) and no
    error is set; the first provider likewise returns [true] when its
    single write fails. *)
Theorem declineRide_reports_success_when_writes_fail (driver : option Driver)
    (uid rideId : string) (s : State) (e1 e2 : PgError) (p : list Fault) :
  driver_user_id_of driver = Some uid →
  plan s = fails e1 :: fails e2 :: p →
  ((Tracked.declineRide driver rideId s).1 = Returned true
   ∧ db (after (Tracked.declineRide driver rideId) s) = db s
   ∧ error (ui (after (Tracked.declineRide driver rideId) s)) = error (ui s)
   ∧ pendingRides (ui (after (Tracked.declineRide driver rideId) s))
     = without_ride rideId (pendingRides (ui s)))
  ∧ (Tracked.declineRide driver rideId (set_plan [] s)).1 = Returned true
  ∧ ((Basic.declineRide driver rideId s).1 = Returned true
     ∧ db (after (Basic.declineRide driver rideId) s) = db s).
Proof.
  intros Hu Hp. unfold after, Tracked.declineRide, Basic.declineRide. rewrite Hu.
  run. unfold Pg.call, next_fault. simpl. rewrite Hp. simpl.
  rewrite ?Hp. simpl. repeat split.
Qed.

(** Both writes of the sample driver's decline fail, and the call still
    returns [true] with no decline marker in the store. *)
Lemma declineRide_reports_success_when_writes_fail_witness :
  let s := set_plan [fails {| code := "500" |}; fails {| code := "500" |}] Sample.state in
  (Tracked.declineRide (Some Sample.driver) "r1" s).1 = Returned true
  ∧ db (after (Tracked.declineRide (Some Sample.driver) "r1") s) = db s.
Proof.
  intros s.
  destruct (declineRide_reports_success_when_writes_fail (Some Sample.driver) "u1" "r1" s
              {| code := "500" |} {| code := "500" |} [] eq_refl eq_refl)
    as ((Hret & Hdb & _) & _).
  split; [exact Hret|exact Hdb].
Defined.

(** ** What the controller boundary returns on a failure *)

Section Failures.

Variables (driver : option Driver) (currentLocation : option Coords).

(** Case analysis on a plan whose first calls are known to fail. *)
Ltac first_fails H :=
  match type of H with
  | fails_within _ (plan ?s) =>
      let Hp := fresh "Hp" in
      destruct (plan s) as [|[|?e|?e] ?p] eqn:Hp; simpl in H; try done;
      unfold Pg.call, next_fault, advance; simpl; rewrite ?Hp; simpl;
      try by eexists
  end.

Ltac next_fails H p :=
  destruct p as [|[|?e|?e] p]; simpl in H |- *; try done; try by eexists.

Ltac first_throws H :=
  match type of H with
  | throws_next (plan ?s) =>
      let Hp := fresh "Hp" in
      destruct (plan s) as [|[|?e|?e] ?p] eqn:Hp; simpl in H; try done;
      erewrite call_throws by (simpl; exact Hp); by eexists
  end.

(** Symbolic execution under a plan given by [Hp]. *)
Ltac planned Hp :=
  simpl in Hp; unfold Pg.call, next_fault, advance; simpl; rewrite ?Hp; simpl.

Lemma basic_acceptRide_fails rideId :
  gives_up_within 1 false (Basic.acceptRide driver rideId).
Proof.
  intros s H. unfold returns_unwritten, Basic.acceptRide.
  destruct (driver_id_of driver) as [did|]; [|by eexists].
  run. first_fails H.
Qed.

Lemma basic_update_status_fails rideId st msg :
  gives_up_within 1 false (Basic.update_status rideId st msg).
Proof. intros s H. unfold returns_unwritten, Basic.update_status. run. first_fails H. Qed.

Lemma basic_generatePickupOTP_fails random rideId :
  gives_up_within 1 None (Basic.generatePickupOTP random rideId).
Proof.
  intros s H. unfold returns_unwritten, Basic.generatePickupOTP. run. first_fails H.
Qed.

Lemma basic_generateDropOTP_fails random rideId :
  gives_up_within 1 None (Basic.generateDropOTP random rideId).
Proof.
  intros s H. unfold returns_unwritten, Basic.generateDropOTP. run. first_fails H.
Qed.

Lemma basic_verifyPickupOTP_fails rideId otp :
  gives_up_within 1 false (Basic.verifyPickupOTP rideId otp).
Proof.
  intros s H. unfold returns_unwritten, Basic.verifyPickupOTP. run. first_fails H.
Qed.

Lemma basic_completeRide_fails rideId :
  gives_up_within 1 Basic.failure (Basic.completeRide driver rideId).
Proof. intros s H. unfold returns_unwritten, Basic.completeRide. run. first_fails H. Qed.

Lemma basic_cancelRide_fails rideId reason :
  gives_up_within 1 false (Basic.cancelRide driver rideId reason).
Proof. intros s H. unfold returns_unwritten, Basic.cancelRide. run. first_fails H. Qed.

Lemma tracked_update_status_fails rideId st msg :
  gives_up_within 1 false (Tracked.update_status rideId st msg).
Proof.
  intros s H. unfold returns_unwritten, Tracked.update_status. run. first_fails H.
Qed.

Lemma tracked_generatePickupOTP_fails random rideId :
  gives_up_within 1 None (Tracked.generatePickupOTP random rideId).
Proof.
  intros s H. unfold returns_unwritten, Tracked.generatePickupOTP. run. first_fails H.
Qed.

Lemma tracked_generateDropOTP_fails random rideId :
  gives_up_within 1 None (Tracked.generateDropOTP random rideId).
Proof.
  intros s H. unfold returns_unwritten, Tracked.generateDropOTP. run. first_fails H.
Qed.

Lemma tracked_cancelRide_fails rideId reason :
  gives_up_within 1 false (Tracked.cancelRide driver rideId reason).
Proof. intros s H. unfold returns_unwritten, Tracked.cancelRide. run. first_fails H. Qed.

(** The read of the row and the write that starts the ride. *)
Lemma tracked_verifyPickupOTP_fails rideId otp :
  gives_up_within 2 false (Tracked.verifyPickupOTP currentLocation rideId otp).
Proof.
  intros s H. unfold returns_unwritten, Tracked.verifyPickupOTP.
  run. first_fails H.
  unfold Pg.select_ride_single.
  destruct (rides (db s) !! rideId) as [ride|]; simpl; [|by eexists].
  destruct (bool_decide _); simpl; [by eexists|].
  next_fails H p.
Qed.

(** The read of the row, the read of the fare rule and the completing
    write. *)
Lemma tracked_completeRide_fails rideId :
  gives_up_within 3 Tracked.failure (Tracked.completeRide driver rideId).
Proof.
  intros s H. unfold returns_unwritten, Tracked.completeRide.
  run. first_fails H.
  unfold Pg.select_ride_single.
  destruct (rides (db s) !! rideId) as [rideData|]; simpl; [|by eexists].
  next_fails H p.
  unfold Pg.select_fare_matrix_single.
  destruct (List.filter _ _) as [|fareMatrix [|? ?]]; simpl; try by eexists.
  next_fails H p.
Qed.

Lemma tracked_acceptRide_throws rideId :
  gives_up_on_throw false (Tracked.acceptRide driver currentLocation rideId).
Proof.
  intros s H. unfold returns_unwritten, Tracked.acceptRide.
  destruct driver as [d|]; [|by eexists].
  destruct (driver_id_of (Some d)) as [did|]; [|by eexists].
  destruct (driver_user_id_of (Some d)) as [uid|]; [|by eexists].
  unfold Tracked.debugQueries. run. first_throws H.
Qed.

Lemma tracked_declineRide_throws rideId :
  gives_up_on_throw false (Tracked.declineRide driver rideId).
Proof.
  intros s H. unfold returns_unwritten, Tracked.declineRide.
  destruct (driver_user_id_of driver) as [uid|]; [|by eexists].
  run. first_throws H.
Qed.

Lemma basic_declineRide_throws uid rideId :
  driver_user_id_of driver = Some uid →
  gives_up_on_throw false (Basic.declineRide driver rideId).
Proof.
  intros Hu s H. unfold returns_unwritten, Basic.declineRide. rewrite Hu.
  run. first_throws H.
Qed.

(** [acceptRide] answers [true] only after its conditional write. *)
Lemma basic_acceptRide_true rideId s s' :
  Basic.acceptRide driver rideId s = (Returned true, s') → accepted_by driver rideId s s'.
Proof.
  unfold Basic.acceptRide, accepted_by.
  destruct (driver_id_of driver) as [did|] eqn:Hd; [|done].
  run. call_cases Hf; [|done..].
  unfold Pg.update_ride_single.
  destruct (rides (db s) !! rideId) as [r|] eqn:Hr; simpl; [|done].
  destruct (still_open r) eqn:Ho; simpl; [|done].
  apply still_open_spec in Ho as [Hs Hdr].
  call_cases Hf2; unfold Pg.update_driver; simpl;
    try destruct (drivers (db s) !! did); simpl; intros [= <-]; simpl;
    by exists did, r.
Qed.

Lemma tracked_acceptRide_true rideId s s' :
  Tracked.acceptRide driver currentLocation rideId s = (Returned true, s') →
  accepted_by driver rideId s s'.
Proof.
  unfold Tracked.acceptRide, accepted_by.
  destruct driver as [d|] eqn:Hdr0; [|done].
  rewrite <- Hdr0 in *.
  destruct (driver_id_of driver) as [did|] eqn:Hd; [|done].
  destruct (driver_user_id_of driver) as [uid|] eqn:Hu; [|done].
  intros H. apply try_catch_inv in H as (o1 & s1 & Hbody & Hcatch).
  destruct o1 as [b|e]; [destruct Hcatch as [[= <-] ->]|done].
  apply bind_inv in Hbody as (oa & sa & Ha & Hbody).
  pose proof (preserves_run _ _ _ _ _ (debugQueries_keeps_rides did) Ha) as Fa.
  destruct oa as [[]|e]; [|by destruct Hbody].
  destruct (negb (Tracked.v_success _)); [done|].
  destruct (negb (auth_is_verified d)); [done|].
  destruct (_ || _); [done|].
  apply bind_inv in Hbody as (ob & sb & Hb & Hbody).
  pose proof (preserves_run _ _ _ _ _
                (startLocationSharing_keeps_rides driver currentLocation) Hb) as Fb.
  rewrite Fa in Fb. clear Fa Ha Hb sa.
  destruct ob as [shared|e]; [|by destruct Hbody].
  destruct (negb shared); [done|].
  injection Fb as Fr Fn.
  revert Hbody. run. call_cases Hf.
  2:{ by destruct (bool_decide _). }
  2: done.
  unfold Pg.update_ride_single. rewrite Fr, Fn.
  destruct (rides (db s) !! rideId) as [r|] eqn:Hr; simpl; [|done].
  destruct (still_open r) eqn:Ho; simpl; [|done].
  apply still_open_spec in Ho as [Hs Hdr].
  match goal with
  | |- context [Tracked.updateDriverStatus driver busy ?s0] =>
      destruct (Tracked.updateDriverStatus driver busy s0) as [ou su] eqn:Eu;
      pose proof (preserves_run _ _ _ _ _ (updateDriverStatus_keeps_rides driver busy) Eu)
        as Fu
  end.
  injection Fu as Fu _. simpl in Fu.
  intros H. exists did, r. repeat split; try done.
  destruct ou as [[]|e]; injection H as <-; simpl; by rewrite Fu.
Qed.

(** [acceptRide] of the extended provider answers [false] only when it
    wrote no ride row. *)
Lemma tracked_acceptRide_false rideId s s' :
  Tracked.acceptRide driver currentLocation rideId s = (Returned false, s') →
  rides (db s') = rides (db s).
Proof.
  unfold Tracked.acceptRide.
  destruct driver as [d|] eqn:Hdr0; [|by intros [= <-]].
  rewrite <- Hdr0 in *.
  destruct (driver_id_of driver) as [did|] eqn:Hd; [|by intros [= <-]].
  destruct (driver_user_id_of driver) as [uid|] eqn:Hu; [|by intros [= <-]].
  intros H. apply try_catch_inv in H as (o1 & s1 & Hbody & Hcatch).
  assert (Hgoal : rides (db s1) = rides (db s) ∨ o1 = Returned true).
  2:{ destruct o1 as [b|e]; [destruct Hcatch as [[= <-] ->]|injection Hcatch as <-];
      by destruct Hgoal. }
  clear Hcatch s'.
  apply bind_inv in Hbody as (oa & sa & Ha & Hbody).
  pose proof (preserves_run _ _ _ _ _ (debugQueries_keeps_rides did) Ha) as Fa.
  injection Fa as Fa Fna.
  destruct oa as [[]|e]; [|destruct Hbody as [-> ->]; by left].
  destruct (negb (Tracked.v_success _)); [injection Hbody as <- <-; by left|].
  destruct (negb (auth_is_verified d)); [injection Hbody as <- <-; by left|].
  destruct (_ || _); [injection Hbody as <- <-; by left|].
  apply bind_inv in Hbody as (ob & sb & Hb & Hbody).
  pose proof (preserves_run _ _ _ _ _
                (startLocationSharing_keeps_rides driver currentLocation) Hb) as Fb.
  injection Fb as Fb Fnb. rewrite Fa in Fb.
  destruct ob as [shared|e]; [|destruct Hbody as [-> ->]; by left].
  destruct (negb shared); [injection Hbody as <- <-; by left|].
  revert Hbody. run. call_cases Hf.
  2:{ destruct (bool_decide _); intros [= <- <-]; by left. }
  2:{ intros [= <- <-]; by left. }
  unfold Pg.update_ride_single.
  destruct (rides (db sb) !! rideId) as [r|] eqn:Hr; simpl.
  2:{ intros [= <- <-]; by left. }
  destruct (still_open r) eqn:Ho; simpl.
  2:{ intros [= <- <-]; by left. }
  match goal with
  | |- context [Tracked.updateDriverStatus driver busy ?s0] =>
      destruct (Tracked.updateDriverStatus driver busy s0) as [[[]|e] su]
  end; intros [= <- <-]; by right.
Qed.

(** ... and [true] whenever it assigned the row, whatever became of the
    update of the driver's status. *)
Lemma tracked_acceptRide_assigned rideId s o s' :
  Tracked.acceptRide driver currentLocation rideId s = (o, s') →
  accepted_by driver rideId s s' → o = Returned true.
Proof.
  intros H (did & r & _ & Hr & Hs & _ & Hw).
  destruct (tracked_acceptRide_returns driver currentLocation rideId s) as (b & s0 & E).
  rewrite E in H. injection H as <- <-. destruct b; [done|].
  apply tracked_acceptRide_false in E. rewrite E in Hw.
  apply (f_equal (λ m : gmap string Ride, status <$> m !! rideId)) in Hw.
  rewrite lookup_insert_eq, Hr in Hw. simpl in Hw. congruence.
Qed.

(** The writes whose error is only logged. *)
Lemma tracked_declineRide_logged uid rideId s :
  driver_user_id_of driver = Some uid →
  none_throws 2 (plan s) →
  (Tracked.declineRide driver rideId s).1 = Returned true.
Proof.
  intros Hu H. unfold Tracked.declineRide. rewrite Hu. run.
  unfold Pg.call, next_fault, advance. simpl.
  destruct (plan s) as [|f1 [|f2 p]]; simpl; try done.
  - destruct f1 as [|e|e]; simpl; try done. exfalso. apply (H e). simpl. left.
  - destruct f1 as [|e|e]; simpl.
    3:{ exfalso. apply (H e). simpl. left. }
    all: destruct f2 as [|e2|e2]; simpl; try done.
    all: exfalso; apply (H e2); simpl; right; left.
Qed.

Lemma basic_declineRide_logged rideId s :
  none_throws 1 (plan s) → (Basic.declineRide driver rideId s).1 = Returned true.
Proof.
  intros H. unfold Basic.declineRide.
  destruct (driver_user_id_of driver) as [uid|]; run; [|done].
  unfold Pg.call, next_fault, advance. simpl.
  destruct (plan s) as [|[|e|e] p]; simpl; try done.
  exfalso. apply (H e). simpl. left.
Qed.

Lemma basic_acceptRide_logged rideId :
  overlooks_error_after 1 (Basic.acceptRide driver rideId).
Proof.
  intros s e p Hp. unfold Basic.acceptRide.
  destruct (driver_id_of driver) as [did|]; [|done].
  run. planned Hp. unfold Pg.update_ride_single.
  destruct (rides (db s) !! rideId) as [r|]; simpl; [|done].
  destruct (still_open r); simpl; [|done].
  unfold Pg.update_driver. simpl. by destruct (drivers (db s) !! did).
Qed.

Lemma basic_completeRide_logged rideId :
  overlooks_error_after 1 (Basic.completeRide driver rideId).
Proof.
  intros s e p Hp. unfold Basic.completeRide.
  run. planned Hp. unfold Pg.update_ride_single.
  destruct (rides (db s) !! rideId) as [r|]; simpl; [|done].
  destruct (driver_id_of driver) as [did|]; simpl; [|done].
  unfold Pg.update_driver. simpl. by destruct (drivers (db s) !! did).
Qed.

Lemma basic_cancelRide_logged rideId reason :
  overlooks_error_after 1 (Basic.cancelRide driver rideId reason).
Proof.
  intros s e p Hp. unfold Basic.cancelRide.
  run. planned Hp. unfold Pg.update_ride_single.
  destruct (rides (db s) !! rideId) as [r|]; simpl; [|done].
  destruct (driver_id_of driver) as [did|]; simpl; [|done].
  unfold Pg.update_driver. simpl. by destruct (drivers (db s) !! did).
Qed.

Lemma tracked_cancelRide_logged rideId reason :
  overlooks_error_after 1 (Tracked.cancelRide driver rideId reason).
Proof.
  intros s e p Hp. unfold Tracked.cancelRide, Tracked.resetTripTracking.
  run. planned Hp. unfold Pg.update_ride_single.
  destruct (rides (db s) !! rideId) as [r|]; simpl; [|done].
  destruct (driver_id_of driver) as [did|]; simpl; [|done].
  unfold Pg.update_driver. simpl. by destruct (drivers (db s) !! did).
Qed.

Lemma tracked_completeRide_logged rideId :
  overlooks_error_after 3 (Tracked.completeRide driver rideId).
Proof.
  intros s e p Hp. unfold Tracked.completeRide, Tracked.resetTripTracking.
  run. planned Hp. unfold Pg.select_ride_single.
  destruct (rides (db s) !! rideId) as [r|] eqn:Hr; simpl; [|done].
  unfold Pg.select_fare_matrix_single.
  destruct (List.filter _ _) as [|fareMatrix [|? ?]]; simpl; try done.
  unfold Pg.update_ride_single. simpl. rewrite Hr. simpl.
  destruct driver as [d|]; [|done].
  destruct (driver_id_of (Some d)) as [did|]; simpl; [|done].
  unfold Pg.update_driver. simpl. by destruct (drivers (db s) !! did).
Qed.

End Failures.

(** C8 (as amended). Every controller operation of both providers
    ([acceptRide], [declineRide], [markDriverArrived], [generatePickupOTP],
    [verifyPickupOTP], [startRide], [generateDropOTP], [completeRide],
    [cancelRide]) returns a value from every state and under every plan of
    store failures, thrown errors included: no exception reaches the
    caller.  The value is the failure value ([false], [null],
    [{success: false}]), and the tables are left as they were, when the
    read or the write of the ride row that opens the operation comes back
    with an error or throws (for [verifyPickupOTP] and [completeRide] of
    the extended provider: its read of the row, its read of the fare rule
    or its write of the row), and when the first store call of
    [acceptRide] or [declineRide] throws.  [acceptRide] answers [true]
    only when its conditional write assigned the row, and in the extended
    provider whenever it did.  An error of a later write is overlooked:
    [acceptRide], [completeRide] and [cancelRide] return the same value
    whether the update of the driver's row comes back with an error or
    goes through, and [declineRide] returns [true] unless one of its
    writes throws. *)
Theorem controller_operations_never_throw
    (driver : option Driver) (currentLocation : option Coords)
    (rideId reason otp : string) (random : Q) :
  ((never_throws (Basic.acceptRide driver rideId)
    ∧ never_throws (Basic.declineRide driver rideId)
    ∧ never_throws (Basic.markDriverArrived rideId)
    ∧ never_throws (Basic.generatePickupOTP random rideId)
    ∧ never_throws (Basic.verifyPickupOTP rideId otp)
    ∧ never_throws (Basic.startRide rideId)
    ∧ never_throws (Basic.generateDropOTP random rideId)
    ∧ never_throws (Basic.completeRide driver rideId)
    ∧ never_throws (Basic.cancelRide driver rideId reason))
   ∧ (never_throws (Tracked.acceptRide driver currentLocation rideId)
      ∧ never_throws (Tracked.declineRide driver rideId)
      ∧ never_throws (Tracked.markDriverArrived rideId)
      ∧ never_throws (Tracked.generatePickupOTP random rideId)
      ∧ never_throws (Tracked.verifyPickupOTP currentLocation rideId otp)
      ∧ never_throws (Tracked.startRide rideId)
      ∧ never_throws (Tracked.generateDropOTP random rideId)
      ∧ never_throws (Tracked.completeRide driver rideId)
      ∧ never_throws (Tracked.cancelRide driver rideId reason)))
  ∧ ((gives_up_within 1 false (Basic.acceptRide driver rideId)
      ∧ gives_up_within 1 false (Basic.markDriverArrived rideId)
      ∧ gives_up_within 1 None (Basic.generatePickupOTP random rideId)
      ∧ gives_up_within 1 false (Basic.verifyPickupOTP rideId otp)
      ∧ gives_up_within 1 false (Basic.startRide rideId)
      ∧ gives_up_within 1 None (Basic.generateDropOTP random rideId)
      ∧ gives_up_within 1 Basic.failure (Basic.completeRide driver rideId)
      ∧ gives_up_within 1 false (Basic.cancelRide driver rideId reason))
     ∧ (gives_up_within 1 false (Tracked.markDriverArrived rideId)
        ∧ gives_up_within 1 None (Tracked.generatePickupOTP random rideId)
        ∧ gives_up_within 2 false (Tracked.verifyPickupOTP currentLocation rideId otp)
        ∧ gives_up_within 1 false (Tracked.startRide rideId)
        ∧ gives_up_within 1 None (Tracked.generateDropOTP random rideId)
        ∧ gives_up_within 3 Tracked.failure (Tracked.completeRide driver rideId)
        ∧ gives_up_within 1 false (Tracked.cancelRide driver rideId reason)))
  ∧ (gives_up_on_throw false (Tracked.acceptRide driver currentLocation rideId)
     ∧ gives_up_on_throw false (Tracked.declineRide driver rideId)
     ∧ (is_Some (driver_user_id_of driver) →
        gives_up_on_throw false (Basic.declineRide driver rideId)))
  ∧ ((∀ s s',
        Basic.acceptRide driver rideId s = (Returned true, s') →
        accepted_by driver rideId s s')
     ∧ (∀ s o s',
          Tracked.acceptRide driver currentLocation rideId s = (o, s') →
          o = Returned true ↔ accepted_by driver rideId s s'))
  ∧ ((overlooks_error_after 1 (Basic.acceptRide driver rideId)
      ∧ overlooks_error_after 1 (Basic.completeRide driver rideId)
      ∧ overlooks_error_after 1 (Basic.cancelRide driver rideId reason)
      ∧ overlooks_error_after 3 (Tracked.completeRide driver rideId)
      ∧ overlooks_error_after 1 (Tracked.cancelRide driver rideId reason))
     ∧ (∀ s, none_throws 1 (plan s) →
          (Basic.declineRide driver rideId s).1 = Returned true)
     ∧ (∀ s, is_Some (driver_user_id_of driver) → none_throws 2 (plan s) →
          (Tracked.declineRide driver rideId s).1 = Returned true)).
Proof.
  split; [split|split; [split|split; [|split; [split|split; [|split]]]]].
  - repeat split.
    + apply basic_acceptRide_returns.
    + apply basic_declineRide_returns.
    + apply basic_update_status_returns.
    + apply basic_generatePickupOTP_returns.
    + apply basic_verifyPickupOTP_returns.
    + apply basic_update_status_returns.
    + apply basic_generateDropOTP_returns.
    + apply basic_completeRide_returns.
    + apply basic_cancelRide_returns.
  - repeat split.
    + apply tracked_acceptRide_returns.
    + apply tracked_declineRide_returns.
    + apply tracked_update_status_returns.
    + apply tracked_generatePickupOTP_returns.
    + apply tracked_verifyPickupOTP_returns.
    + apply tracked_update_status_returns.
    + apply tracked_generateDropOTP_returns.
    + apply tracked_completeRide_returns.
    + apply tracked_cancelRide_returns.
  - split; [apply basic_acceptRide_fails|].
    split; [apply basic_update_status_fails|].
    split; [apply basic_generatePickupOTP_fails|].
    split; [apply basic_verifyPickupOTP_fails|].
    split; [apply basic_update_status_fails|].
    split; [apply basic_generateDropOTP_fails|].
    split; [apply basic_completeRide_fails|apply basic_cancelRide_fails].
  - split; [apply tracked_update_status_fails|].
    split; [apply tracked_generatePickupOTP_fails|].
    split; [apply tracked_verifyPickupOTP_fails|].
    split; [apply tracked_update_status_fails|].
    split; [apply tracked_generateDropOTP_fails|].
    split; [apply tracked_completeRide_fails|apply tracked_cancelRide_fails].
  - split; [apply tracked_acceptRide_throws|].
    split; [apply tracked_declineRide_throws|].
    intros [uid Hu]. by apply (basic_declineRide_throws _ uid).
  - intros s s' H. by apply basic_acceptRide_true.
  - intros s o s' H. split.
    + intros ->. by apply tracked_acceptRide_true in H.
    + intros Ha. by eapply tracked_acceptRide_assigned.
  - split; [apply basic_acceptRide_logged|].
    split; [apply basic_completeRide_logged|].
    split; [apply basic_cancelRide_logged|].
    split; [apply tracked_completeRide_logged|apply tracked_cancelRide_logged].
  - intros s H. by apply basic_declineRide_logged.
  - intros s [uid Hu] H. by apply (tracked_declineRide_logged _ uid).
Qed.

(** At the end of the sample trip the completing write throws:
    [completeRide] returns [{success: false}] and the ride is still in
    progress in the store. *)
Lemma controller_operations_never_throw_witness :
  let s := set_plan [succeeds; succeeds; throws {| JS.message := "Failed to fetch" |}]
             Sample.trip_state in
  returns_unwritten (Tracked.completeRide (Some Sample.busy_driver) "r1") s Tracked.failure
  ∧ status <$> rides (db s) !! "r1" = Some in_progress.
Proof.
  intros s. split; [|vm_compute; reflexivity].
  destruct (controller_operations_never_throw (Some Sample.busy_driver)
              (Some Sample.location) "r1" "no show" "4821" (1 # 2))
    as (_ & (_ & _ & _ & _ & _ & _ & Hcomplete & _) & _).
  exact (Hcomplete s I).
Defined.

(** C8 as stated fails where the failing store call is not the one on
    the ride row: with both of its writes coming back with an error
    [declineRide] returns [true] and records no marker; with the update of
    the driver's status failing (an error result for the first provider,
    a thrown error for the extended one) [acceptRide] returns [true] and
    the driver stays [online]; with the update of the driver failing
    [completeRide] and [cancelRide] report success and the driver stays
    [busy]. *)
Lemma failed_driver_and_marker_writes_report_success :
  let refused := fails {| code := "500" |} in
  let thrown := throws {| JS.message := "Failed to fetch" |} in
  let outcome {A} (m : M A) (s : State) :=
    (returned m s, drv_status <$> drivers (db (after m s)) !! "d1") in
  let decline := Tracked.declineRide (Some Sample.driver) "r1" in
  let declining := set_plan [refused; refused] Sample.offered_state in
  (returned decline declining = Some true
   ∧ notifications (db (after decline declining)) = notifications (db Sample.offered_state))
  ∧ outcome (Basic.acceptRide (Some Sample.driver) "r1")
      (set_plan [succeeds; refused] Sample.state)
    = (Some true, Some online)
  ∧ outcome (Tracked.acceptRide (Some Sample.driver) (Some Sample.location) "r1")
      (set_plan [succeeds; succeeds; succeeds; succeeds; thrown] Sample.state)
    = (Some true, Some online)
  ∧ (Tracked.success <$>
       returned (Tracked.completeRide (Some Sample.busy_driver) "r1")
         (set_plan [succeeds; succeeds; succeeds; refused] Sample.trip_state)) = Some true
  ∧ drv_status <$>
      drivers (db (after (Tracked.completeRide (Some Sample.busy_driver) "r1")
                     (set_plan [succeeds; succeeds; succeeds; refused] Sample.trip_state)))
        !! "d1" = Some busy
  ∧ outcome (Tracked.cancelRide (Some Sample.busy_driver) "r1" "no show")
      (set_plan [succeeds; refused] Sample.trip_state)
    = (Some true, Some busy).
Proof. vm_compute. repeat split. Qed.

(** ** Completion and fares *)







(** ** Rental fares *)




(** ** Where the code departs from the claims *)

(** C3. At the end of the sample trip (ride [r1] in progress, drop code
    7314 stored, driver busy), [completeRide] of the extended provider
    succeeds, sets the ride [completed] and the driver [online] and
    returns a total fare of 175, but leaves the drop code on the row; the
    first provider, on the same state, clears it. *)
Theorem completeRide_leaves_drop_otp :
  let complete := Tracked.completeRide (Some Sample.busy_driver) "r1" in
  let stored (s : State) := rides (db s) !! "r1" in
  status <$> stored Sample.trip_state = Some in_progress
  ∧ drop_otp <$> stored Sample.trip_state = Some (Some "7314")
  ∧ Tracked.success <$> returned complete Sample.trip_state = Some true
  ∧ status <$> stored (after complete Sample.trip_state) = Some completed
  ∧ drop_otp <$> stored (after complete Sample.trip_state) = Some (Some "7314")
  ∧ drv_status <$> drivers (db (after complete Sample.trip_state)) !! "d1" = Some online
  ∧ drop_otp <$> stored (after (Basic.completeRide (Some Sample.busy_driver) "r1")
                           Sample.trip_state) = Some None.
Proof. vm_compute. repeat split. Qed.

(** C4. The sample driver declines ride [r1] (the decline marker is in
    the store), the ride is offered again by a new notification, and the
    periodic [checkForMissedNotifications] puts [r1] back among the
    pending rides; [checkForNewRides], which consults the markers, does
    not. *)
Theorem declined_ride_returns_through_missed_notifications :
  let marker (n : Notification) :=
    bool_decide (n_user_id n = "u1") && bool_decide (n_type n = ride_declined)
    && data_contains_ride "r1" n in
  ride_id <$> pendingRides (ui Sample.offered_state) = ["r1"]
  ∧ pendingRides (ui Sample.declined_state) = []
  ∧ length (List.filter marker (notifications (db Sample.reoffered_state))) = 1%nat
  ∧ ride_id <$> pendingRides
                  (ui (after (Tracked.checkForMissedNotifications (Some Sample.driver))
                         Sample.reoffered_state)) = ["r1"]
  ∧ pendingRides (ui (after (Tracked.checkForNewRides Sample.env Sample.manager)
                        Sample.reoffered_state)) = [].
Proof. vm_compute. repeat split. Qed.

(** C7. During the sample trip the read of the assigned ride fails, by
    a thrown error or by an error result: [checkForNewRides] of the
    extended provider clears the current ride, which the store still
    holds in progress; the first provider keeps it. *)
Theorem failed_read_clears_current_ride :
  let thrown := set_plan [throws {| JS.message := "Failed to fetch" |}] Sample.trip_state in
  let refused := set_plan [fails {| code := "500" |}] Sample.trip_state in
  let refresh := Tracked.checkForNewRides Sample.env Sample.busy_manager in
  let refresh_basic := Basic.checkForNewRides Sample.env (Some Sample.busy_driver) in
  ride_id <$> currentRide (ui Sample.trip_state) = Some "r1"
  ∧ status <$> rides (db Sample.trip_state) !! "r1" = Some in_progress
  ∧ currentRide (ui (after refresh thrown)) = None
  ∧ currentRide (ui (after refresh refused)) = None
  ∧ db (after refresh thrown) = db Sample.trip_state
  ∧ currentRide (ui (after refresh_basic thrown)) = currentRide (ui Sample.trip_state)
  ∧ currentRide (ui (after refresh_basic refused)) = currentRide (ui Sample.trip_state).
Proof. vm_compute. repeat split. Qed.

(** ** Reconciliation *)

Lemma modify_ui_keeps_db (g : Local → Local) : preserves db (modify_ui g).
Proof. by intros s. Qed.

(** A store call whose query writes nothing leaves the store alone under
    every plan. *)
Lemma call_keeps_db {A} (q : Pg.Query A) :
  (∀ d, (q d).2 = d) → preserves db (Pg.call q).
Proof.
  intros Hq s. unfold Pg.call.
  destruct (next_fault s) as [|e|e]; simpl; try done.
  specialize (Hq (db s)). by destruct (q (db s)) as [r d]; simpl in *.
Qed.

(** A query that writes nothing. *)
Ltac read_only :=
  intros ?d;
  unfold Pg.select_ride_single, Pg.select_rides, Pg.select_rides_newest,
    Pg.select_ride_newest_maybe, Pg.select_driver_single,
    Pg.select_user_single, Pg.select_vehicle_single, Pg.select_fare_matrix_single,
    Pg.select_notifications, Pg.select_notifications_latest,
    Pg.select_scheduled, Pg.select_scheduled_maybe;
  repeat case_match; done.

(** Steps of a proof that a computation leaves the store alone. *)
Ltac store_step :=
  match goal with
  | |- preserves _ (match ?x with _ => _ end) => destruct x
  | |- preserves _ (_ ≫= _) => apply preserves_bind; [|intros ?]
  | |- preserves _ (try_catch _ _) => apply preserves_try_catch; [|intros ?]
  | |- preserves _ (finally _ _) => apply preserves_finally
  | |- preserves _ (mret _) => apply preserves_ret
  | |- preserves _ (throw _) => apply preserves_throw
  | |- preserves _ (gets _) => apply preserves_gets
  | |- preserves _ (when _ _) => apply preserves_when
  | |- preserves db (Pg.call _) => apply call_keeps_db; read_only
  | |- preserves db _ => apply modify_ui_keeps_db
  end.

Ltac store_frame := repeat store_step.

Lemma tracked_loadAssignedRide_reads env this :
  preserves db (Tracked.loadAssignedRide env this).
Proof.
  unfold Tracked.loadAssignedRide, Tracked.notifyCurrentRide. store_frame.
Qed.

Lemma tracked_loadPendingRides_reads env this :
  preserves db (Tracked.loadPendingRides env this).
Proof.
  unfold Tracked.loadPendingRides, Tracked.notifyRides. store_frame.
Qed.

Lemma tracked_loadAssignedScheduledBooking_reads this :
  preserves db (Tracked.loadAssignedScheduledBooking this).
Proof.
  unfold Tracked.loadAssignedScheduledBooking, Tracked.notifyAssignedScheduledBooking.
  store_frame.
Qed.

Lemma tracked_checkForNewRides_reads env this :
  preserves db (Tracked.checkForNewRides env this).
Proof.
  unfold Tracked.checkForNewRides. store_frame.
  - apply tracked_loadAssignedRide_reads.
  - apply tracked_loadPendingRides_reads.
  - apply tracked_loadAssignedScheduledBooking_reads.
Qed.

Lemma tracked_checkForMissedNotifications_reads driver :
  preserves db (Tracked.checkForMissedNotifications driver).
Proof.
  unfold Tracked.checkForMissedNotifications, Tracked.processNewNotifications.
  store_frame.
Qed.

Lemma basic_checkForNewRides_reads env driver :
  preserves db (Basic.checkForNewRides env driver).
Proof.
  unfold Basic.checkForNewRides, Basic.loadAssignedRide,
    Basic.loadAssignedScheduledBooking, Basic.loadPendingRides.
  store_frame.
Qed.

(** Reconciliation only reads: whatever the state and the plan of
    store failures, [checkForNewRides] of both providers (hence
    [refreshRides]) and the periodic [checkForMissedNotifications] leave
    every table of the store as it was. *)
Theorem reconciliation_never_writes_the_store (env : Env) (this : Tracked.Manager)
    (driver : option Driver) (s : State) :
  db (after (Tracked.checkForNewRides env this) s) = db s
  ∧ db (after (Tracked.refreshRides env this) s) = db s
  ∧ db (after (Tracked.checkForMissedNotifications driver) s) = db s
  ∧ db (after (Basic.checkForNewRides env driver) s) = db s
  ∧ db (after (Basic.refreshRides env driver) s) = db s.
Proof.
  unfold after, Tracked.refreshRides, Basic.refreshRides.
  repeat split.
  - apply tracked_checkForNewRides_reads.
  - apply tracked_checkForNewRides_reads.
  - apply tracked_checkForMissedNotifications_reads.
  - apply basic_checkForNewRides_reads.
  - apply basic_checkForNewRides_reads.
Qed.

Lemma apply_patch_then (p q : Patch) (l : Local) :
  apply_patch (patch_then p q) l = apply_patch q (apply_patch p l).
Proof.
  destruct p as [[?|] [?|] [?|] [?|] [?|]], q as [[?|] [?|] [?|] [?|] [?|]];
    reflexivity.
Qed.

Lemma apply_patch_twice (p : Patch) (l : Local) :
  apply_patch p (apply_patch p l) = apply_patch p l.
Proof. destruct p as [[?|] [?|] [?|] [?|] [?|]]; reflexivity. Qed.

Lemma set_ui_same (s : State) : set_ui (apply_patch no_patch (ui s)) s = s.
Proof. by destruct s. Qed.

Lemma advance_idle (s : State) : plan s = [] → advance s = s.
Proof. destruct s; simpl. by intros ->. Qed.

Section Settles.

Context {A B : Type}.

Lemma settles_ret (a : A) : settles (mret a).
Proof.
  intros d t. exists no_patch, a. intros s _ _ _.
  unfold mret, M_ret, ret. by rewrite set_ui_same.
Qed.

Lemma settles_bind (m : M A) (k : A → M B) :
  settles m → (∀ a, settles (k a)) → settles (m ≫= k).
Proof.
  intros Hm Hk d t. destruct (Hm d t) as (p & a & Ha).
  destruct (Hk a d t) as (q & b & Hb).
  exists (patch_then p q), b. intros s Hd Ht Hp.
  unfold mbind, M_bind, bind. rewrite (Ha s Hd Ht Hp).
  rewrite (Hb (set_ui (apply_patch p (ui s)) s) Hd Ht Hp). simpl.
  by rewrite apply_patch_then.
Qed.

Lemma settles_try_catch (m : M A) (h : JS.Error → M A) :
  settles m → settles (try_catch m h).
Proof.
  intros Hm d t. destruct (Hm d t) as (p & a & Ha).
  exists p, a. intros s Hd Ht Hp. unfold try_catch. by rewrite (Ha s Hd Ht Hp).
Qed.

Lemma settles_call (q : Pg.Query A) :
  (∀ d, (q d).2 = d) → settles (Pg.call q).
Proof.
  intros Hq d t. exists no_patch, (q d).1. intros s Hd Ht Hp.
  unfold Pg.call, next_fault. rewrite Hp. simpl.
  specialize (Hq (db s)). rewrite <- Hd.
  destruct (q (db s)) as [r d']; simpl in *. subst d'.
  rewrite set_ui_same. destruct s; simpl in *. by subst.
Qed.

End Settles.

Lemma settles_when (c : bool) (m : M unit) : settles m → settles (when c m).
Proof. intros Hm. destruct c; [done|]. apply settles_ret. Qed.

Lemma settles_gets_now : settles (gets now).
Proof.
  intros d t. exists no_patch, t. intros s _ Ht _.
  unfold gets. by rewrite Ht, set_ui_same.
Qed.

Lemma settles_setCurrentRide v : settles (setCurrentRide v).
Proof.
  intros d t.
  exists {| p_currentRide := Some v; p_pendingRides := None; p_scheduledBookings := None;
            p_assignedScheduledBooking := None; p_error := None |}, tt.
  by intros s _ _ _.
Qed.

Lemma settles_setPendingRides v : settles (setPendingRides v).
Proof.
  intros d t.
  exists {| p_currentRide := None; p_pendingRides := Some v; p_scheduledBookings := None;
            p_assignedScheduledBooking := None; p_error := None |}, tt.
  by intros s _ _ _.
Qed.

Lemma settles_setScheduledBookings v : settles (setScheduledBookings v).
Proof.
  intros d t.
  exists {| p_currentRide := None; p_pendingRides := None; p_scheduledBookings := Some v;
            p_assignedScheduledBooking := None; p_error := None |}, tt.
  by intros s _ _ _.
Qed.

Lemma settles_setAssignedScheduledBooking v : settles (setAssignedScheduledBooking v).
Proof.
  intros d t.
  exists {| p_currentRide := None; p_pendingRides := None; p_scheduledBookings := None;
            p_assignedScheduledBooking := Some v; p_error := None |}, tt.
  by intros s _ _ _.
Qed.

(** A computation that settles reaches a fixed point at its first run. *)
Lemma settles_idempotent {A} (m : M A) (s : State) :
  settles m → plan s = [] → after m (after m s) = after m s.
Proof.
  intros Hm Hp. destruct (Hm (db s) (now s)) as (p & a & Ha).
  unfold after. rewrite (Ha s eq_refl eq_refl Hp). simpl.
  rewrite (Ha (set_ui (apply_patch p (ui s)) s) eq_refl eq_refl Hp). simpl.
  by rewrite apply_patch_twice.
Qed.

Ltac settles_step :=
  match goal with
  | |- settles (match ?x with _ => _ end) => destruct x
  | |- settles (_ ≫= _) => apply settles_bind; [|intros ?]
  | |- settles (try_catch _ _) => apply settles_try_catch
  | |- settles (mret _) => apply settles_ret
  | |- settles (gets now) => apply settles_gets_now
  | |- settles (when _ _) => apply settles_when
  | |- settles (Pg.call _) => apply settles_call; read_only
  | |- settles (setCurrentRide _) => apply settles_setCurrentRide
  | |- settles (setPendingRides _) => apply settles_setPendingRides
  | |- settles (setScheduledBookings _) => apply settles_setScheduledBookings
  | |- settles (setAssignedScheduledBooking _) =>
      apply settles_setAssignedScheduledBooking
  end.

Ltac settle := repeat settles_step.

Lemma tracked_checkForNewRides_settles env this :
  settles (Tracked.checkForNewRides env this).
Proof.
  unfold Tracked.checkForNewRides, Tracked.loadAssignedRide, Tracked.loadPendingRides,
    Tracked.loadAssignedScheduledBooking, Tracked.notifyCurrentRide,
    Tracked.notifyRides, Tracked.notifyAssignedScheduledBooking.
  settle.
Qed.

Lemma basic_checkForNewRides_settles env driver :
  settles (Basic.checkForNewRides env driver).
Proof.
  unfold Basic.checkForNewRides, Basic.loadAssignedRide,
    Basic.loadAssignedScheduledBooking, Basic.loadPendingRides.
  settle.
Qed.

(** Idempotent reconciliation: when no store failure is planned, a
    second [checkForNewRides] right after the first (nothing having
    changed in the store) leaves the whole state, local snapshot
    included, as the first one left it, in both providers. *)
Theorem checkForNewRides_idempotent (env : Env) (this : Tracked.Manager)
    (driver : option Driver) (s : State) :
  plan s = [] →
  after (Tracked.checkForNewRides env this) (after (Tracked.checkForNewRides env this) s)
  = after (Tracked.checkForNewRides env this) s
  ∧ after (Basic.checkForNewRides env driver) (after (Basic.checkForNewRides env driver) s)
    = after (Basic.checkForNewRides env driver) s.
Proof.
  intros Hp. split.
  - by apply settles_idempotent; [apply tracked_checkForNewRides_settles|].
  - by apply settles_idempotent; [apply basic_checkForNewRides_settles|].
Qed.

(** On the sample store the first reconciliation finds the offered ride;
    the second changes nothing. *)
Lemma checkForNewRides_idempotent_witness :
  ride_id <$> pendingRides (ui (after (Tracked.checkForNewRides Sample.env Sample.manager)
                                  Sample.state)) = ["r1"]
  ∧ after (Tracked.checkForNewRides Sample.env Sample.manager)
      (after (Tracked.checkForNewRides Sample.env Sample.manager) Sample.state)
    = after (Tracked.checkForNewRides Sample.env Sample.manager) Sample.state.
Proof.
  split; [vm_compute; reflexivity|].
  exact (proj1 (checkForNewRides_idempotent Sample.env Sample.manager
                  (Some Sample.driver) Sample.state eq_refl)).
Defined.

Lemma rides_where_spec (f : string → Ride → bool) (d : Store) (x : Ride) :
  x ∈ Pg.rides_where f d ↔ ∃ k, rides d !! k = Some x ∧ f k x = true.
Proof.
  unfold Pg.rides_where. rewrite list_elem_of_fmap. split.
  - intros ([k r] & -> & Hin). apply list_elem_of_In, filter_In in Hin as [Hin Hf].
    apply list_elem_of_In, elem_of_map_to_list in Hin. by exists k.
  - intros (k & Hk & Hf). exists (k, x). split; [done|].
    apply list_elem_of_In, filter_In. split; [|done].
    by apply list_elem_of_In, elem_of_map_to_list.
Qed.

Lemma ride_ids_of_spec (ns : list Notification) (k : string) :
  k ∈ ride_ids_of ns ↔
  ∃ n dat, n ∈ ns ∧ n_data n = Some dat ∧ data_ride_id dat = Some k
    ∧ JS.truthy (Some k) = true.
Proof.
  unfold ride_ids_of. rewrite list_elem_of_omap. split.
  - intros (n & Hn & Hk). destruct (n_data n) as [dat|] eqn:Hd; [|done].
    simpl in Hk. destruct (data_ride_id dat) as [i|] eqn:Hi; [|done].
    simpl in Hk. destruct (JS.truthy (Some i)) eqn:Ht; simpl in Ht; rewrite Ht in Hk;
      [|done].
    injection Hk as ->. exists n, dat. by rewrite <- Ht.
  - intros (n & dat & Hn & Hd & Hi & Ht). exists n. split; [done|].
    rewrite Hd. simpl. rewrite Hi. simpl. simpl in Ht. by rewrite Ht.
Qed.

Lemma latest_requests_spec (f : Notification → bool) (limit : option nat)
    (d : Store) (n : Notification) :
  n ∈ default [] (Pg.data (Pg.select_notifications_latest f limit d).1) →
  n ∈ notifications d ∧ f n = true.
Proof.
  unfold Pg.select_notifications_latest. simpl. intros Hn.
  assert (n ∈ merge_sort Pg.latest_first (List.filter f (notifications d))) as Hm.
  { destruct limit as [k|]; [|done].
    eapply elem_of_submseteq; [exact Hn|].
    apply sublist_submseteq, sublist_take. }
  rewrite merge_sort_Permutation in Hm.
  apply list_elem_of_In, filter_In in Hm as [Hin Hf].
  by apply list_elem_of_In in Hin.
Qed.

(** What [loadPendingRides] of the extended provider offers: when
    no store failure is planned, every ride it leaves in the pending list
    is a requested, unassigned row for which the driver holds an unread
    ride request and no decline marker. *)
Theorem loadPendingRides_offers_only_undeclined_rides (env : Env)
    (this : Tracked.Manager) (uid : string) (s : State) (x : Ride) :
  plan s = [] →
  well_keyed (db s) →
  driver_user_id_of (Tracked.authDriver this) = Some uid →
  Tracked.onRideUpdate this = true →
  x ∈ pendingRides (ui (after (Tracked.loadPendingRides env this) s)) →
  status x = requested ∧ driver_id x = None
  ∧ requested_of uid (ride_id x) (db s)
  ∧ ¬ declined_by uid (ride_id x) (db s).
Proof.
  intros Hp Hwf Hu Hreg.
  unfold after, Tracked.loadPendingRides, Tracked.notifyRides. rewrite Hu, Hreg.
  destruct (Tracked.not_configured env); [run; by intros ?%elem_of_nil|].
  pose proof (latest_requests_spec (unread_ride_request_of uid) (Some 10%nat) (db s))
    as Hreq.
  unfold try_catch, when. unfold mbind, M_bind, bind at 1.
  unfold Pg.call at 1, next_fault. rewrite Hp. simpl head. simpl default.
  cbv iota beta.
  destruct (Pg.select_notifications_latest (unread_ride_request_of uid) (Some 10%nat) (db s))
    as [res d1] eqn:E1.
  assert (d1 = db s ∧ Pg.error res = None) as [-> Herr]
    by (unfold Pg.select_notifications_latest in E1; by injection E1 as <- <-).
  clear E1. simpl in Hreq. rewrite Herr.
  destruct (Pg.data res) as [[|n ns]|]; [run; by intros ?%elem_of_nil| |run; by intros ?%elem_of_nil].
  simpl in Hreq.
  set (offered := n :: ns) in *.
  pose proof (ride_ids_of_spec offered) as Hids.
  destruct (ride_ids_of offered) as [|i ids] eqn:Eids;
    [run; by intros ?%elem_of_nil|].
  rewrite <- Eids in *. clear Eids i ids.
  unfold bind at 1. unfold Pg.call at 1, next_fault. simpl plan. rewrite Hp.
  simpl head. simpl default. cbv iota beta.
  unfold Pg.select_notifications. cbv iota beta.
  change (db (set_db (db s) (advance s))) with (db s).
  set (markers := List.filter _ (notifications (db s))).
  change (Pg.data (Pg.ok markers)) with (Some markers). simpl default.
  set (available := List.filter _ (ride_ids_of offered)).
  assert (Havail : ∀ k, k ∈ available →
            requested_of uid k (db s) ∧ ¬ declined_by uid k (db s)).
  { intros k Hk. apply list_elem_of_In, filter_In in Hk as [Hk Hnot].
    apply list_elem_of_In in Hk. apply bool_decide_eq_true in Hnot.
    pose proof Hk as Hk'. apply Hids in Hk' as (m & dat & Hm & Hdat & Hrid & Htruthy).
    destruct (Hreq m Hm) as [Hin Hf].
    unfold unread_ride_request_of, ride_request_of in Hf.
    rewrite !andb_true_iff, !bool_decide_eq_true in Hf. destruct Hf as [[Hmu Hmt] Hms].
    split; [by exists m, dat|].
    intros (m' & dat' & Hin' & Hu' & Ht' & Hdat' & Hrid'). apply Hnot.
    apply elem_of_list_to_set, ride_ids_of_spec.
    exists m', dat'. repeat split; try done.
    apply list_elem_of_In, filter_In. split; [by apply list_elem_of_In|].
    rewrite !andb_true_iff, !bool_decide_eq_true. repeat split; try done.
    unfold Tracked.data_ride_in. rewrite Hdat', Hrid'. by apply bool_decide_eq_true. }
  clearbody available markers.
  destruct available as [|a avail]; [run; by intros ?%elem_of_nil|].
  set (available := a :: avail) in *.
  unfold bind at 1. unfold Pg.call at 1, next_fault. simpl plan. rewrite Hp.
  simpl head. simpl default. cbv iota beta.
  unfold Pg.select_rides. cbv iota beta.
  change (Pg.error (Pg.ok ?v)) with (@None PgError).
  run. intros Hx. apply rides_where_spec in Hx as (k & Hk & Hf).
  apply andb_true_iff in Hf as [Hin Hopen].
  apply bool_decide_eq_true in Hin. apply still_open_spec in Hopen as [Hs Hd].
  rewrite (Hwf k x Hk). destruct (Havail k Hin). done.
Qed.

(** The sample store offers ride [r1] to the sample driver. *)
Lemma loadPendingRides_offers_only_undeclined_rides_witness :
  status Sample.ride = requested ∧ driver_id Sample.ride = None
  ∧ requested_of "u1" (ride_id Sample.ride) (db Sample.state)
  ∧ ¬ declined_by "u1" (ride_id Sample.ride) (db Sample.state).
Proof.
  apply (loadPendingRides_offers_only_undeclined_rides Sample.env Sample.manager "u1"
           Sample.state Sample.ride).
  - reflexivity.
  - intros k r Hk.
    change (rides (db Sample.state)) with ({[ "r1" := Sample.ride ]} : gmap string Ride)
      in Hk.
    apply lookup_singleton_Some in Hk as [<- <-]. reflexivity.
  - reflexivity.
  - reflexivity.
  - vm_compute. apply list_elem_of_here.
Defined.


(** ** More on acceptance *)



(** ** The life of a pickup code *)

Lemma advance_unplanned (s : State) : plan s = [] → plan (advance s) = [].
Proof. unfold advance. simpl. by intros ->. Qed.

(** A pickup code opens the ride once: right after [generatePickupOTP]
    returned it, [verifyPickupOTP] with that code starts the ride and
    clears the code; the same code then fails, and so does any code but
    the newest once another one has been generated (no store failure
    being planned). *)
Theorem pickup_code_is_single_use (currentLocation : option Coords)
    (rideId : string) (random random' : Q) (s : State) (r : Ride)
    (generate : Q → string → M (option string)) (verify : string → string → M bool) :
  (generate = Basic.generatePickupOTP ∧ verify = Basic.verifyPickupOTP)
  ∨ (generate = Tracked.generatePickupOTP
     ∧ verify = Tracked.verifyPickupOTP currentLocation) →
  rides (db s) !! rideId = Some r →
  plan s = [] →
  let code := otp_of_draw random in
  let issued := after (generate random rideId) s in
  let started := after (verify rideId code) issued in
  (generate random rideId s).1 = Returned (Some code)
  ∧ (verify rideId code issued).1 = Returned true
  ∧ status <$> rides (db started) !! rideId = Some in_progress
  ∧ pickup_otp <$> rides (db started) !! rideId = Some None
  ∧ ((verify rideId code started).1 = Returned false
     ∧ rides (db (after (verify rideId code) started)) = rides (db started))
  ∧ (otp_of_draw random' ≠ code →
     let reissued := after (generate random' rideId) issued in
     (verify rideId code reissued).1 = Returned false
     ∧ rides (db (after (verify rideId code) reissued)) = rides (db reissued)).
Proof.
  intros Hops Hrow Hplan code issued started.
  assert (Hcall : next_fault s = succeeds) by (unfold next_fault; by rewrite Hplan).
  assert (Hgen : generate random rideId s
                 = (Returned (Some code),
                    set_db (set_rides (<[rideId := with_pickup_otp code (now s) r]>
                                         (rides (db s))) (db s)) (advance s))).
  { destruct Hops as [[-> _]|[-> _]];
      [by apply basic_generatePickupOTP_stores|by apply tracked_generatePickupOTP_stores]. }
  assert (Hver : ∀ otp t o t', verify rideId otp t = (o, t') → verify_effect rideId otp t o t').
  { intros otp t o t' E. destruct Hops as [[_ ->]|[_ ->]];
      [by apply basic_verifyPickupOTP_effect|by apply tracked_verifyPickupOTP_effect in E]. }
  assert (Hissued : rides (db issued) !! rideId = Some (with_pickup_otp code (now s) r)
                    ∧ plan issued = [] ∧ now issued = now s).
  { unfold issued, after. rewrite Hgen. simpl. rewrite lookup_insert_eq, Hplan. done. }
  destruct Hissued as (Hrow1 & Hplan1 & Hnow1).
  destruct (verify rideId code issued) as [o1 s1] eqn:E1.
  pose proof (Hver _ _ _ _ E1) as [_ Hgo].
  destruct (Hgo _ Hrow1 eq_refl Hplan1) as [-> Hrow2].
  assert (Hs1 : started = s1) by (unfold started, after; by rewrite E1).
  rewrite Hs1. clear Hgo.
  split; [by rewrite Hgen|]. split; [done|].
  split; [by rewrite Hrow2|]. split; [by rewrite Hrow2|]. split.
  - destruct (verify rideId code s1) as [o2 s2] eqn:E2. unfold after. rewrite E2. simpl.
    pose proof (Hver _ _ _ _ E2) as [[[? ->]|(r' & Hr' & Hcode & _)] _]; [done|].
    rewrite Hrow2 in Hr'. injection Hr' as <-. done.
  - intros Hne reissued.
    assert (Hcall1 : next_fault issued = succeeds)
      by (unfold next_fault; by rewrite Hplan1).
    assert (Hgen' : generate random' rideId issued
                    = (Returned (Some (otp_of_draw random')),
                       set_db (set_rides
                                 (<[rideId := with_pickup_otp (otp_of_draw random')
                                                (now issued)
                                                (with_pickup_otp code (now s) r)]>
                                    (rides (db issued))) (db issued)) (advance issued))).
    { destruct Hops as [[-> _]|[-> _]];
        [by apply basic_generatePickupOTP_stores
        |by apply tracked_generatePickupOTP_stores]. }
    assert (Hrow3 : rides (db reissued) !! rideId
                    = Some (with_pickup_otp (otp_of_draw random') (now issued)
                              (with_pickup_otp code (now s) r))).
    { unfold reissued, after. rewrite Hgen'. simpl. by rewrite lookup_insert_eq. }
    destruct (verify rideId code reissued) as [o3 s3] eqn:E3. unfold after. rewrite E3.
    simpl.
    pose proof (Hver _ _ _ _ E3) as [[[? ->]|(r' & Hr' & Hcode & _)] _]; [done|].
    rewrite Hrow3 in Hr'. injection Hr' as <-. simpl in Hcode. congruence.
Qed.

(** The pickup code 4821 of the sample ride starts it once. *)
Lemma pickup_code_is_single_use_witness :
  let verify := Tracked.verifyPickupOTP (Some Sample.location) "r1" "4821" in
  (verify Sample.awaiting_state).1 = Returned true
  ∧ (verify (after verify Sample.awaiting_state)).1 = Returned false.
Proof.
  intros verify.
  assert (Hrow : rides (db Sample.arrived_state) !! "r1"
                 = Some (default Sample.ride (rides (db Sample.arrived_state) !! "r1")))
    by (vm_compute; reflexivity).
  destruct (pickup_code_is_single_use (Some Sample.location) "r1" (3821 # 9000) (1 # 2)
              Sample.arrived_state _ Tracked.generatePickupOTP
              (Tracked.verifyPickupOTP (Some Sample.location))
              (or_intror (conj eq_refl eq_refl)) Hrow eq_refl)
    as (_ & Htrue & _ & _ & (Hfalse & _) & _).
  split; [exact Htrue|exact Hfalse].
Defined.

(** ** Status updates *)


Lemma basic_update_status_effect rideId st msg s o s' :
  Basic.update_status rideId st msg s = (o, s') →
  (∃ r, rides (db s) !! rideId = Some r ∧ next_fault s = succeeds
        ∧ o = Returned true
        ∧ rides (db s') = <[rideId := moved_to st (now s) r]> (rides (db s))
        ∧ currentRide (ui s') = Some (moved_to st (now s) r))
  ∨ ((rides (db s) !! rideId = None ∨ next_fault s ≠ succeeds)
     ∧ o = Returned false ∧ db s' = db s ∧ currentRide (ui s') = currentRide (ui s)).
Proof.
  unfold Basic.update_status. run. call_cases Hf.
  all: unfold next_fault in Hf; simpl in Hf; fold (next_fault s) in Hf.
  2,3: intros [= <- <-]; right; split; [right; congruence|done].
  unfold Pg.update_ride_single.
  destruct (rides (db s) !! rideId) as [r|] eqn:Hr; simpl; intros [= <- <-].
  - left. by exists r.
  - right. split; [by left|done].
Qed.

Lemma tracked_update_status_effect rideId st msg s o s' :
  Tracked.update_status rideId st msg s = (o, s') →
  (∃ r, rides (db s) !! rideId = Some r ∧ next_fault s = succeeds
        ∧ o = Returned true
        ∧ rides (db s') = <[rideId := moved_to st (now s) r]> (rides (db s))
        ∧ currentRide (ui s') = Some (moved_to st (now s) r))
  ∨ ((rides (db s) !! rideId = None ∨ next_fault s ≠ succeeds)
     ∧ o = Returned false ∧ db s' = db s ∧ currentRide (ui s') = currentRide (ui s)).
Proof.
  unfold Tracked.update_status. run. call_cases Hf.
  all: unfold next_fault in Hf; simpl in Hf; fold (next_fault s) in Hf.
  2,3: intros [= <- <-]; right; split; [right; congruence|done].
  unfold Pg.update_ride_single.
  destruct (rides (db s) !! rideId) as [r|] eqn:Hr; simpl; intros [= <- <-].
  - left. by exists r.
  - right. split; [by left|done].
Qed.

(** [markDriverArrived] and [startRide] of either provider test nothing
    but the existence of the row: when the row exists and the store call
    goes through, the status is written over whatever status the row had,
    the row becomes the current ride and the call answers [true];
    otherwise nothing is written, the current ride is kept and the call
    answers [false]. *)
Theorem status_updates_test_no_status (rideId : string) (s s' : State)
    (o : Outcome bool) (update : string → M bool) (st : RideStatus) :
  (update = Basic.markDriverArrived ∧ st = driver_arrived)
  ∨ (update = Tracked.markDriverArrived ∧ st = driver_arrived)
  ∨ (update = Basic.startRide ∧ st = in_progress)
  ∨ (update = Tracked.startRide ∧ st = in_progress) →
  update rideId s = (o, s') →
  (∃ r, rides (db s) !! rideId = Some r ∧ next_fault s = succeeds
        ∧ o = Returned true
        ∧ rides (db s') = <[rideId := moved_to st (now s) r]> (rides (db s))
        ∧ currentRide (ui s') = Some (moved_to st (now s) r))
  ∨ ((rides (db s) !! rideId = None ∨ next_fault s ≠ succeeds)
     ∧ o = Returned false ∧ db s' = db s ∧ currentRide (ui s') = currentRide (ui s)).
Proof.
  intros [[-> ->]|[[-> ->]|[[-> ->]|[-> ->]]]] H.
  - by apply basic_update_status_effect in H.
  - by apply tracked_update_status_effect in H.
  - by apply basic_update_status_effect in H.
  - by apply tracked_update_status_effect in H.
Qed.

(** The completed ride of the sample trip is started again by
    [startRide]. *)
Lemma status_updates_test_no_status_witness :
  let finished := after (Tracked.completeRide (Some Sample.busy_driver) "r1")
                    Sample.trip_state in
  status <$> rides (db finished) !! "r1" = Some completed
  ∧ (Tracked.startRide "r1" finished).1 = Returned true
  ∧ status <$> rides (db (after (Tracked.startRide "r1") finished)) !! "r1"
    = Some in_progress.
Proof.
  intros finished.
  destruct (Tracked.startRide "r1" finished) as [o s'] eqn:E.
  destruct (status_updates_test_no_status "r1" finished s' o Tracked.startRide in_progress)
    as [(r & Hr & _ & -> & Hw & _)|[[Hn|Hn] _]].
  - right; right; right. split; reflexivity.
  - exact E.
  - split; [vm_compute; reflexivity|]. split; [reflexivity|].
    unfold after. rewrite E. simpl. rewrite Hw, lookup_insert_eq. reflexivity.
  - vm_compute in Hn. discriminate Hn.
  - exfalso. apply Hn. reflexivity.
Defined.

(** ** Declining with the store at work *)




(** ** Acceptance needs a complete profile and a position *)





(** ** The end of a trip *)

(** A completion that succeeds closes the trip: the ride is [completed]
    in the store, the local tracking is reset (no current ride, no start,
    no distance), the driver is shown [online], and the completion data
    carry the tracked distance and duration; a completion that fails
    keeps the local tracking as it was.  Either way the loading flag is
    down. *)
Theorem completeRide_closes_the_trip_on_success (driver : option Driver)
    (rideId : string) (s s' : State) (c : Tracked.Completion) :
  Tracked.completeRide driver rideId s = (Returned c, s') →
  loading (ui s') = false
  ∧ (Tracked.success c = true →
       tracking (ui s') = (None, None, None, 0%float, None)
       ∧ authStatus (ui s') = Some online
       ∧ status <$> rides (db s') !! rideId = Some completed
       ∧ ∃ cd, Tracked.completionData c = Some cd
           ∧ Tracked.distance cd = tracked_distance (ui s)
           ∧ Tracked.duration cd = tracked_minutes (ui s) (now s))
  ∧ (Tracked.success c = false →
       tracking (ui s') = tracking (ui s)
       ∧ authStatus (ui s') = authStatus (ui s)
       ∧ Tracked.completionData c = None).
Proof.
  unfold Tracked.completeRide, Tracked.resetTripTracking.
  run. call_cases Hf1.
  2,3: by intros [= <- <-].
  unfold Pg.select_ride_single.
  destruct (rides (db s) !! rideId) as [rideData|] eqn:Hr; simpl.
  2: by intros [= <- <-].
  call_cases Hf2.
  2,3: by intros [= <- <-].
  unfold Pg.select_fare_matrix_single. simpl.
  destruct (List.filter _ (fare_matrix (db s))) as [|fareMatrix [|? ?]]; simpl.
  1,3: by intros [= <- <-].
  call_cases Hf3.
  2,3: by intros [= <- <-].
  unfold Pg.update_ride_single. simpl. rewrite Hr. simpl.
  destruct driver as [d|]; [destruct (driver_id_of (Some d)) as [did|]|].
  1: call_cases Hf4.
  all: unfold Pg.update_driver; simpl.
  all: try match goal with
           | |- context [drivers ?t !! ?k] => destruct (drivers t !! k); simpl
           end.
  all: intros [= <- <-]; simpl; split; [done|]; split; try done.
  all: intros _; split; [done|]; split; [done|].
  all: rewrite ?lookup_insert_eq; split; [done|]; by eexists.
Qed.

(** The completion of the sample trip: thirty minutes and 12.5 km are
    reported and the tracking is reset. *)
Lemma completeRide_closes_the_trip_on_success_witness :
  let run := Tracked.completeRide (Some Sample.busy_driver) "r1" Sample.trip_state in
  tracking (ui run.2) = (None, None, None, 0%float, None)
  ∧ authStatus (ui run.2) = Some online
  ∧ (Tracked.distance <$> (returned (Tracked.completeRide (Some Sample.busy_driver) "r1")
                             Sample.trip_state ≫= Tracked.completionData))
    = Some (tracked_distance (ui Sample.trip_state)).
Proof.
  intros run.
  destruct run as [o s'] eqn:E. unfold run in E.
  destruct o as [c|e]; [|vm_compute in E; discriminate E].
  assert (Hs : Tracked.success c = true)
    by (vm_compute in E; injection E as <- _; reflexivity).
  destruct (completeRide_closes_the_trip_on_success _ _ _ _ _ E)
    as (_ & Hok & _).
  destruct (Hok Hs) as (Ht & Ha & _ & cd & Hcd & Hdist & _).
  split; [exact Ht|]. split; [exact Ha|].
  unfold returned. rewrite E. simpl. rewrite Hcd. simpl. by rewrite Hdist.
Defined.

(** ** Starting the trip *)

(** A pickup verification that succeeds under the extended provider
    starts the local tracking of the trip: the start time is the time of
    the verification, the start and the last known position are the
    current position, no distance has been travelled, and the started
    ride is the current ride.  One that fails leaves the tracking as it
    was. *)
Theorem verifyPickupOTP_starts_tracking (currentLocation : option Coords)
    (rideId otp : string) (s s' : State) (b : bool) :
  Tracked.verifyPickupOTP currentLocation rideId otp s = (Returned b, s') →
  (b = true →
     ∃ r, rides (db s) !! rideId = Some r
       ∧ tracking (ui s')
         = (Some (verified (now s) r), Some (now s),
            Tracked.position <$> currentLocation, 0%float,
            Tracked.position <$> currentLocation))
  ∧ (b = false → tracking (ui s') = tracking (ui s)).
Proof.
  unfold Tracked.verifyPickupOTP.
  run. call_cases Hf.
  2,3: by intros [= <- <-].
  unfold Pg.select_ride_single.
  destruct (rides (db s) !! rideId) as [r|] eqn:Hr; simpl.
  2: by intros [= <- <-].
  destruct (bool_decide (pickup_otp r ≠ Some otp)); simpl.
  1: by intros [= <- <-].
  call_cases Hf2.
  2,3: by intros [= <- <-].
  unfold Pg.update_ride_single. simpl. rewrite Hr. simpl.
  intros [= <- <-]. split; [|done]. intros _. by exists r.
Qed.

(** The verification of the sample ride starts the tracking at the
    sample position. *)
Lemma verifyPickupOTP_starts_tracking_witness :
  tripStartTime (ui Sample.started_state) = Some (now Sample.awaiting_state)
  ∧ tripStartLocation (ui Sample.started_state) = Some (12.75%float, 77.8125%float)
  ∧ totalDistanceTraveled (ui Sample.started_state) = 0%float.
Proof.
  destruct (Tracked.verifyPickupOTP (Some Sample.location) "r1" "4821" Sample.awaiting_state)
    as [o s'] eqn:E.
  assert (Hs : Sample.started_state = s')
    by (unfold Sample.started_state, after; by rewrite E).
  destruct o as [b|e]; [|vm_compute in E; discriminate E].
  assert (Hb : b = true) by (vm_compute in E; injection E as <- _; reflexivity).
  destruct (verifyPickupOTP_starts_tracking _ _ _ _ _ _ E) as [Hok _].
  destruct (Hok Hb) as (r & _ & Ht). rewrite Hs.
  unfold tracking in Ht. injection Ht as _ -> -> -> _. repeat split.
Defined.

(** ** Sharing the position *)

(** [startLocationSharing] answers [true] and stores the current
    position, stamped with the current time, under the driver's user as
    soon as its first write (the upsert) goes through; and whenever it
    answers [false] it has written nothing. *)
Theorem startLocationSharing_stores_the_position (driver : option Driver)
    (currentLocation : option Coords) (s s' : State) (o : Outcome bool) :
  Tracked.startLocationSharing driver currentLocation s = (o, s') →
  (∀ uid coords,
     driver_user_id_of driver = Some uid → currentLocation = Some coords →
     next_fault s = succeeds →
     o = Returned true
     ∧ live_locations (db s') !! uid
       = Some {| loc_coords := coords; loc_updated_at := now s |})
  ∧ (∃ b, o = Returned b)
  ∧ (o = Returned false → db s' = db s).
Proof.
  unfold Tracked.startLocationSharing.
  destruct (driver_user_id_of driver) as [uid|];
    [|intros [= <- <-]; split; [intros; congruence|eauto]].
  destruct currentLocation as [coords|];
    [|intros [= <- <-]; split; [intros; congruence|eauto]].
  run. call_cases Hf1.
  all: unfold next_fault in Hf1; simpl in Hf1; fold (next_fault s) in Hf1.
  1:{ intros [= <- <-]. split; [|split; [eauto|intros; congruence]].
      intros ? ? [= <-] [= <-] _. simpl. by rewrite lookup_insert_eq. }
  2:{ intros [= <- <-]. split; [intros; congruence|eauto]. }
  call_cases Hf2.
  3:{ intros [= <- <-]. split; [intros; congruence|eauto]. }
  - unfold Pg.insert_live_location.
    destruct (live_locations (db s) !! uid) eqn:Hl; simpl.
    2:{ intros [= <- <-]. split; [intros; congruence|].
        split; [eauto|intros; congruence]. }
    call_cases Hf3.
    2,3: intros [= <- <-]; split; [intros; congruence|eauto].
    unfold Pg.update_live_location. simpl. rewrite Hl. simpl.
    intros [= <- <-]. split; [intros; congruence|].
    split; [eauto|intros; congruence].
  - call_cases Hf3.
    2,3: intros [= <- <-]; split; [intros; congruence|eauto].
    unfold Pg.update_live_location. simpl.
    destruct (live_locations (db s) !! uid); simpl; intros [= <- <-];
      (split; [intros; congruence|split; [eauto|intros; congruence]]).
Qed.

(** Accepting the sample ride stores the sample position. *)
Lemma startLocationSharing_stores_the_position_witness :
  let run := Tracked.startLocationSharing (Some Sample.driver) (Some Sample.location)
               Sample.state in
  run.1 = Returned true
  ∧ loc_coords <$> live_locations (db run.2) !! "u1" = Some Sample.location.
Proof.
  intros run.
  destruct (proj1 (startLocationSharing_stores_the_position (Some Sample.driver)
                     (Some Sample.location) Sample.state run.2 run.1
                     (surjective_pairing run))
              "u1" Sample.location eq_refl eq_refl eq_refl) as [Ho Hl].
  split; [exact Ho|]. by rewrite Hl.
Defined.

(** ** Cancelling *)

(** [cancelRide] of either provider tests nothing but the existence of
    the row: when the row exists and the write goes through, the row is
    [cancelled] with the reason given and, when the driver has a user
    id, that id as the cancelling party, whatever the status of the ride
    was; when the call answers [true] the provider has no current ride
    any more; when the row does not exist or the write fails, nothing is
    written and the call answers [false]. *)
Theorem cancelRide_cancels_any_ride (driver : option Driver) (rideId reason : string)
    (s s' : State) (o : Outcome bool) (cancel : M bool) :
  cancel = Basic.cancelRide driver rideId reason
  ∨ cancel = Tracked.cancelRide driver rideId reason →
  cancel s = (o, s') →
  (∀ r, rides (db s) !! rideId = Some r → next_fault s = succeeds →
        ∃ r', rides (db s') = <[rideId := r']> (rides (db s))
          ∧ status r' = cancelled
          ∧ cancellation_reason r' = Some reason
          ∧ (∀ uid, driver_user_id_of driver = Some uid → cancelled_by r' = Some uid)
          ∧ driver_id r' = driver_id r)
  ∧ (o = Returned true → currentRide (ui s') = None ∧ is_Some (rides (db s) !! rideId))
  ∧ (rides (db s) !! rideId = None ∨ next_fault s ≠ succeeds →
     o = Returned false ∧ db s' = db s).
Proof.
  assert (Hrow : ∀ r', (∀ uid, driver_user_id_of driver = Some uid →
                              cancelled_by (set_cancelled_by_driver driver r') = Some uid)
                       ∧ status (set_cancelled_by_driver driver r') = status r'
                       ∧ cancellation_reason (set_cancelled_by_driver driver r')
                         = cancellation_reason r'
                       ∧ driver_id (set_cancelled_by_driver driver r') = driver_id r').
  { intros r'. unfold set_cancelled_by_driver, driver_user_id_of.
    destruct driver as [d|]; simpl; [destruct (auth_user_id d) as [u|]; simpl|];
      (split; [|done]); intros uid; try done.
    destruct (negb (String.eqb u "")); congruence. }
  intros [-> | ->].
  - unfold Basic.cancelRide. run. call_cases Hf.
    all: unfold next_fault in Hf; simpl in Hf; fold (next_fault s) in Hf.
    2,3: intros [= <- <-]; split; [congruence|split; [done|done]].
    unfold Pg.update_ride_single.
    destruct (rides (db s) !! rideId) as [r|] eqn:Hr; simpl.
    2:{ intros [= <- <-]. split; [done|]. split; [done|]. by intros [?|?]. }
    intros H. split; [|split].
    + intros ? [= <-] _. eexists. split; [|split; [|split; [|split]]].
      * revert H. destruct (driver_id_of driver) as [did|]; [call_cases Hf2|];
          unfold Pg.update_driver; simpl;
          try destruct (drivers (db s) !! did); simpl; by intros [= <- <-].
      * simpl. by rewrite (proj1 (proj2 (Hrow _))).
      * simpl. by rewrite (proj1 (proj2 (proj2 (Hrow _)))).
      * intros uid Hu. simpl. by apply (proj1 (Hrow _)).
      * simpl. by rewrite (proj2 (proj2 (proj2 (Hrow _)))).
    + intros ->. revert H.
      destruct (driver_id_of driver) as [did|]; [call_cases Hf2|];
        unfold Pg.update_driver; simpl;
        try destruct (drivers (db s) !! did); simpl; intros [= <-]; by eauto.
    + intros [?|?]; congruence.
  - unfold Tracked.cancelRide, Tracked.resetTripTracking. run. call_cases Hf.
    all: unfold next_fault in Hf; simpl in Hf; fold (next_fault s) in Hf.
    2,3: intros [= <- <-]; split; [congruence|split; [done|done]].
    unfold Pg.update_ride_single.
    destruct (rides (db s) !! rideId) as [r|] eqn:Hr; simpl.
    2:{ intros [= <- <-]. split; [done|]. split; [done|]. by intros [?|?]. }
    intros H. split; [|split].
    + intros ? [= <-] _. eexists. split; [|split; [|split; [|split]]].
      * revert H. destruct (driver_id_of driver) as [did|]; [call_cases Hf2|];
          unfold Pg.update_driver; simpl;
          try destruct (drivers (db s) !! did); simpl; by intros [= <- <-].
      * simpl. by rewrite (proj1 (proj2 (Hrow _))).
      * done.
      * intros uid Hu. simpl. by apply (proj1 (Hrow _)).
      * simpl. by rewrite (proj2 (proj2 (proj2 (Hrow _)))).
    + intros ->. revert H.
      destruct (driver_id_of driver) as [did|]; [call_cases Hf2|];
        unfold Pg.update_driver; simpl;
        try destruct (drivers (db s) !! did); simpl; intros [= <-]; by eauto.
    + intros [?|?]; congruence.
Qed.

(** The sample trip is cancelled by its driver. *)
Lemma cancelRide_cancels_any_ride_witness :
  let run := Tracked.cancelRide (Some Sample.busy_driver) "r1" "no show"
               Sample.trip_state in
  status <$> rides (db Sample.trip_state) !! "r1" = Some in_progress
  ∧ status <$> rides (db run.2) !! "r1" = Some cancelled
  ∧ cancelled_by <$> rides (db run.2) !! "r1" = Some (Some "u1").
Proof.
  intros run. split; [vm_compute; reflexivity|].
  assert (Hrow : rides (db Sample.trip_state) !! "r1"
                 = Some (default Sample.ride (rides (db Sample.trip_state) !! "r1")))
    by (vm_compute; reflexivity).
  destruct (proj1 (cancelRide_cancels_any_ride (Some Sample.busy_driver) "r1" "no show"
                     Sample.trip_state run.2 run.1 _ (or_intror eq_refl)
                     (surjective_pairing run)) _ Hrow eq_refl)
    as (r' & Hw & Hs & _ & Hby & _).
  rewrite Hw, lookup_insert_eq. simpl. rewrite Hs, (Hby "u1" eq_refl). done.
Defined.

(** ** Reconciliation keeps its errors *)

(** No error leaves a reconciliation: [checkForNewRides] of both
    providers (hence [refreshRides]), their loaders, the periodic
    [checkForMissedNotifications] and [processNewNotifications] return
    from every state and under every plan of store failures. *)
Theorem reconciliation_never_throws (env : Env) (this : Tracked.Manager)
    (driver : option Driver) (notifications : list Notification) :
  (never_throws (Tracked.checkForNewRides env this)
   ∧ never_throws (Tracked.refreshRides env this)
   ∧ never_throws (Tracked.loadAssignedRide env this)
   ∧ never_throws (Tracked.loadPendingRides env this)
   ∧ never_throws (Tracked.loadAssignedScheduledBooking this)
   ∧ never_throws (Tracked.checkForMissedNotifications driver)
   ∧ never_throws (Tracked.processNewNotifications notifications))
  ∧ (never_throws (Basic.checkForNewRides env driver)
     ∧ never_throws (Basic.refreshRides env driver)
     ∧ never_throws (Basic.loadAssignedRide env driver)
     ∧ never_throws (Basic.loadPendingRides env driver)
     ∧ never_throws (Basic.loadAssignedScheduledBooking env driver)).
Proof.
  assert (Hwhen : ∀ c m, never_throws m → never_throws (when c m)).
  { intros [] m Hm; [done|apply never_throws_ret]. }
  split; repeat split.
  - apply never_throws_try_catch. intros _. apply never_throws_ret.
  - apply never_throws_try_catch. intros _. apply never_throws_ret.
  - apply never_throws_try_catch. intros _. apply Hwhen, never_throws_modify_ui.
  - apply never_throws_try_catch. intros _. apply never_throws_ret.
  - apply never_throws_try_catch. intros _. apply never_throws_ret.
  - unfold Tracked.checkForMissedNotifications.
    destruct (driver_user_id_of driver); [|apply never_throws_ret].
    apply never_throws_try_catch. intros _. apply never_throws_ret.
  - apply never_throws_try_catch. intros _. apply never_throws_ret.
  - unfold Basic.checkForNewRides.
    destruct driver as [d|]; [destruct (driver_id_of (Some d))|];
      try apply never_throws_ret.
    apply never_throws_try_catch. intros _. apply never_throws_modify_ui.
  - unfold Basic.refreshRides, Basic.checkForNewRides.
    destruct driver as [d|]; [destruct (driver_id_of (Some d))|];
      try apply never_throws_ret.
    apply never_throws_try_catch. intros _. apply never_throws_modify_ui.
  - unfold Basic.loadAssignedRide.
    destruct (driver_id_of driver); [|apply never_throws_ret].
    apply never_throws_try_catch. intros _. apply never_throws_ret.
  - unfold Basic.loadPendingRides.
    destruct (driver_user_id_of driver); [|apply never_throws_ret].
    apply never_throws_try_catch. intros _. apply never_throws_ret.
  - unfold Basic.loadAssignedScheduledBooking.
    destruct (driver_id_of driver); [|apply never_throws_ret].
    apply never_throws_try_catch. intros _. apply never_throws_ret.
Qed.
